(** * RTCM 3 codec and transport envelope of gnss-sdr (src/algorithms/PVT/libs/rtcm.h)

    A shallow embedding of the classes that [rtcm.h] defines inline
    ([Rtcm_Message], [Rtcm_Listener_Room], [Queue_Reader]) and of the member
    functions that [rtcm.h] only declares ([check_CRC], [build_message],
    [print_MT1005], [read_MT1005], [lock_time], ...).  The bodies of the latter
    live in a translation unit that is not part of the sources at hand; they
    are modelled from the specification and every such definition says so. *)

From Stdlib Require Import ZArith QArith Qround Qabs Lia Ascii String List.
From stdpp Require Import base gmap list strings.
Import ListNotations.

#[local] Open Scope Z_scope.
#[local] Open Scope list_scope.

(** ** Characters *)

(** [std::string] and [std::array<char, N>] are lists of 8-bit characters. *)
Definition chars (s : string) : list ascii := list_ascii_of_string s.

Definition char_code (c : ascii) : Z := Z.of_N (N_of_ascii c).

Definition NUL : ascii := Ascii.zero.
Definition SPACE : ascii := " "%char.

(** [isspace] in the "C" locale: space, \t, \n, \v, \f, \r. *)
Definition isspace (c : ascii) : bool :=
  (char_code c =? 32) || ((9 <=? char_code c) && (char_code c <=? 13)).

Definition isdigit (c : ascii) : bool :=
  (48 <=? char_code c) && (char_code c <=? 57).

Definition digit_value (c : ascii) : Z := char_code c - 48.

Definition digit_char (d : Z) : ascii := ascii_of_N (Z.to_N (48 + d)).

(** ** Integer conversions of the C++ side *)

Definition INT_MIN : Z := - 2 ^ 31.
Definition INT_MAX : Z := 2 ^ 31 - 1.

(** Conversion to [std::size_t] (64 bits, modular). *)
Definition to_size_t (v : Z) : Z := v mod 2 ^ 64.

(** [static_cast<int>] of a [std::size_t] (32-bit two's complement wrap). *)
Definition to_int (v : Z) : Z := (v + 2 ^ 31) mod 2 ^ 32 - 2 ^ 31.

(** *** [std::stoi]

    [std::stoi(str)] is [strtol(str.c_str(), &end, 10)]: leading white space
    is skipped, one optional sign is read, then the longest run of decimal
    digits; whatever follows is ignored.  [None] stands for the exception
    ([std::invalid_argument] when no digit is found, [std::out_of_range] when
    the value does not fit an [int]). *)

Fixpoint skip_spaces (s : list ascii) : list ascii :=
  match s with
  | c :: r => if isspace c then skip_spaces r else s
  | [] => []
  end.

Fixpoint read_digits (acc : Z) (s : list ascii) : Z :=
  match s with
  | c :: r => if isdigit c then read_digits (acc * 10 + digit_value c) r else acc
  | [] => acc
  end.

Definition read_sign (s : list ascii) : bool * list ascii :=
  match s with
  | c :: r =>
      if Ascii.eqb c "-" then (true, r)
      else if Ascii.eqb c "+" then (false, r)
      else (false, s)
  | [] => (false, s)
  end.

Definition stoi (str : list ascii) : option Z :=
  let '(negative, s) := read_sign (skip_spaces str) in
  match s with
  | c :: _ =>
      if isdigit c then
        let magnitude := read_digits 0 s in
        let v := if negative then - magnitude else magnitude in
        if (INT_MIN <=? v) && (v <=? INT_MAX) then Some v else None
      else None
  | [] => None
  end.

(** *** [operator<<(int)] with [std::setw] *)

(** Decimal digits of a non-negative number, most significant first. *)
Fixpoint decimal_digits (fuel : nat) (n : Z) (acc : list ascii) : list ascii :=
  match fuel with
  | O => acc
  | S fuel' =>
      if n <? 10 then digit_char n :: acc
      else decimal_digits fuel' (n / 10) (digit_char (n mod 10) :: acc)
  end.

(** An [int] has at most ten decimal digits. *)
Definition int_to_chars (v : Z) : list ascii :=
  if v <? 0 then "-"%char :: decimal_digits 10 (- v) []
  else decimal_digits 10 v [].

(** [ss << std::setw(w) << v]: the default fill character is a space and the
    default adjustment is to the right. *)
Definition setw (w : nat) (field : list ascii) : list ascii :=
  repeat SPACE (w - length field) ++ field.

(** [std::string::resize(n, c)]. *)
Definition resize (n : nat) (c : ascii) (s : list ascii) : list ascii :=
  take n s ++ repeat c (n - length s).

(** ** [Rtcm::Rtcm_Message] *)

Module Rtcm_Message.

Definition header_length : nat := 6.
Definition max_body_length : Z := 1029.

(** [data_] is a [std::array<char, header_length + max_body_length>],
    [body_length_] a [std::size_t]. *)
Record t : Type := mk {
  data_ : list ascii;
  body_length_ : Z
}.

(** The default constructor: [data_{}] is zero-initialised. *)
Definition new : t :=
  {| data_ := repeat NUL (header_length + Z.to_nat max_body_length);
     body_length_ := 0 |}.

Definition length (m : t) : Z := Z.of_nat header_length + body_length_ m.

(** [body()] points [header_length] characters into [data_]; the bytes that
    belong to the message are the first [body_length_] ones. *)
Definition body (m : t) : list ascii :=
  take (Z.to_nat (body_length_ m)) (drop header_length (data_ m)).

(** The six characters of the envelope header. *)
Definition header (m : t) : list ascii := take header_length (data_ m).

(** [void body_length(std::size_t new_length)] *)
Definition body_length (new_length : Z) (m : t) : t :=
  let m1 := {| data_ := data_ m; body_length_ := new_length |} in
  if body_length_ m1 >? max_body_length
  then {| data_ := data_ m1; body_length_ := max_body_length |}
  else m1.

(** [bool decode_header()]: the result and the message afterwards.  The
    array always holds the six header characters, so the last case of the
    match is never taken. *)
Definition decode_header (m : t) : bool * t :=
  let header := take header_length (data_ m) in
  match header with
  | h0 :: h1 :: header2 =>
      if negb (Ascii.eqb h0 "G") || negb (Ascii.eqb h1 "S") then (false, m)
      else
        match stoi header2 with
        | None => (false, {| data_ := data_ m; body_length_ := 0 |})
        | Some v =>
            let m1 := {| data_ := data_ m; body_length_ := to_size_t v |} in
            if body_length_ m1 =? 0 then (false, m1)
            else if body_length_ m1 >? max_body_length
                 then (false, {| data_ := data_ m; body_length_ := 0 |})
                 else (true, m1)
        end
  | _ => (false, m)
  end.

(** [void encode_header()] *)
Definition encode_header (m : t) : t :=
  let ss :=
    chars "GS" ++
    setw 4 (int_to_chars
              (Z.max (Z.min (to_int (body_length_ m)) (to_int max_body_length)) 0)) in
  let header := resize header_length SPACE ss in
  {| data_ := header ++ drop (List.length header) (data_ m);
     body_length_ := body_length_ m |}.

(** What an [async_read] of [header_length] bytes into [data()] leaves. *)
Definition receive_header (h : list ascii) (m : t) : t :=
  {| data_ := h ++ drop (List.length h) (data_ m);
     body_length_ := body_length_ m |}.

End Rtcm_Message.

(** ** [Rtcm::Rtcm_Listener_Room] *)

Module Rtcm_Listener_Room.

(** A participant is a [std::shared_ptr<RtcmListener>]; it is identified by
    the address it holds. *)
Definition participant : Type := nat.

(** One call [participant->deliver(msg)] of the virtual
    [RtcmListener::deliver]. *)
Definition delivery : Type := (participant * Rtcm_Message.t)%type.

Definition max_recent_msgs : nat := 1.

Record t : Type := mk {
  participants_ : gset participant;
  recent_msgs_ : list Rtcm_Message.t
}.

Definition new : t := {| participants_ := ∅; recent_msgs_ := [] |}.

(** [while (recent_msgs_.size() > max_recent_msgs) recent_msgs_.pop_front();] *)
Fixpoint trim (recent : list Rtcm_Message.t) : list Rtcm_Message.t :=
  match recent with
  | [] => []
  | _ :: rest =>
      if (max_recent_msgs <? List.length recent)%nat then trim rest else recent
  end.

(** Each operation returns the room afterwards and the calls of
    [RtcmListener::deliver] it made, in order; [elements] stands for the
    iteration over the [std::set]. *)
Definition join (p : participant) (r : t) : t * list delivery :=
  ({| participants_ := {[p]} ∪ participants_ r; recent_msgs_ := recent_msgs_ r |},
   map (fun msg => (p, msg)) (recent_msgs_ r)).

Definition leave (p : participant) (r : t) : t * list delivery :=
  ({| participants_ := participants_ r ∖ {[p]}; recent_msgs_ := recent_msgs_ r |},
   []).

Definition deliver (msg : Rtcm_Message.t) (r : t) : t * list delivery :=
  ({| participants_ := participants_ r;
      recent_msgs_ := trim (recent_msgs_ r ++ [msg]) |},
   map (fun p => (p, msg)) (elements (participants_ r))).

Inductive operation : Type :=
| Join (p : participant)
| Leave (p : participant)
| Deliver (msg : Rtcm_Message.t).

Definition step (o : operation) (r : t) : t * list delivery :=
  match o with
  | Join p => join p r
  | Leave p => leave p r
  | Deliver msg => deliver msg r
  end.

(** A sequence of operations, with the trace of all deliveries made. *)
Fixpoint run (ops : list operation) (r : t) : t * list delivery :=
  match ops with
  | [] => (r, [])
  | o :: ops' =>
      let '(r1, d1) := step o r in
      let '(r2, d2) := run ops' r1 in
      (r2, d1 ++ d2)
  end.

(** The message of the last [Deliver] of a sequence, if there is one. *)
Fixpoint last_delivered (ops : list operation) : option Rtcm_Message.t :=
  match ops with
  | [] => None
  | o :: ops' =>
      match last_delivered ops' with
      | Some m => Some m
      | None => match o with Deliver m => Some m | _ => None end
      end
  end.

End Rtcm_Listener_Room.

(** ** [Rtcm::Queue_Reader] *)

Module Queue_Reader.

(** [std::copy_n(src, n, data + offset)] on the array [data]. *)
Definition copy_n (src : list ascii) (n : nat) (offset : nat) (data : list ascii)
  : list ascii :=
  take offset data ++ take n src ++ drop (offset + n) data.

(** The body of one iteration after the sentinel test: the message that is
    handed to [c->write]. *)
Definition envelope (message : string) : Rtcm_Message.t :=
  let msg := Rtcm_Message.new in
  let char_msg := chars message ++ [NUL] in
  let msg := Rtcm_Message.body_length (Z.of_nat (String.length message)) msg in
  let msg :=
    {| Rtcm_Message.data_ :=
         copy_n char_msg (Z.to_nat (Rtcm_Message.body_length_ msg))
           Rtcm_Message.header_length (Rtcm_Message.data_ msg);
       Rtcm_Message.body_length_ := Rtcm_Message.body_length_ msg |} in
  Rtcm_Message.encode_header msg.

(** How [do_read_queue] ends on a finite sequence of queued strings: it
    leaves the loop at the sentinel (the rest of the queue stays), or it is
    left waiting in [wait_and_pop] on the emptied queue. *)
Inductive outcome : Type :=
| Returned (remaining : list string)
| Waiting.

(** [popped] is the sequence of strings that [wait_and_pop] yields; the
    result lists the messages passed to [c->write], in call order. *)
Fixpoint do_read_queue (popped : list string) : list Rtcm_Message.t * outcome :=
  match popped with
  | [] => ([], Waiting)
  | message :: rest =>
      if String.eqb message "Goodbye" then ([], Returned rest)
      else
        let '(written, o) := do_read_queue rest in
        (envelope message :: written, o)
  end.

End Queue_Reader.

(** ** The codec: member functions of [Rtcm] that [rtcm.h] only declares *)

Module Rtcm.

(** *** BitField codec *)

(** Modelled from the spec: a BitVector, the content of a binary-digit
    string ('0'/'1' symbols), first symbol first ([rtcm.h] declares the
    conversions on [std::string], their bodies are missing). *)
Definition bits : Type := list bool.

(** Modelled from the spec: [bin_to_uint] (body missing), the unsigned value
    of a binary-digit string, most significant bit first. *)
Definition bin_to_uint (s : bits) : Z :=
  fold_left (fun acc (b : bool) => 2 * acc + Z.b2z b) s 0.

(** Modelled from the spec: [bin_to_int] (body missing), the two's
    complement value of a binary-digit string. *)
Definition bin_to_int (s : bits) : Z :=
  match s with
  | true :: _ => bin_to_uint s - 2 ^ Z.of_nat (List.length s)
  | _ => bin_to_uint s
  end.

(** Modelled from the spec: [bits_to_double(bit_string, resolution)] (body
    missing); a [double] is taken as the rational it stands for. *)
Definition bin_to_double (s : bits) (resolution : Q) : Q :=
  (inject_Z (bin_to_int s) * resolution)%Q.

(** Modelled from the spec: the [width] low bits of a number in two's
    complement, most significant first (what a [std::bitset<width>] prints;
    the encoders' bodies are missing). *)
Fixpoint low_bits (width : nat) (v : Z) : bits :=
  match width with
  | O => []
  | S w => Z.testbit v (Z.of_nat w) :: low_bits w v
  end.

(** Modelled from the spec: [to_bits(unsigned_value, width)] (body missing),
    which saturates at the largest representable value. *)
Definition to_bits (v : Z) (width : nat) : bits :=
  low_bits width (Z.min (Z.max v 0) (2 ^ Z.of_nat width - 1)).

(** Modelled from the spec: [to_bits_signed(signed_value, width)] (body
    missing), two's complement on [width] bits. *)
Definition to_bits_signed (v : Z) (width : nat) : bits := low_bits width v.

(** Modelled from the spec: rounding to the nearest integer, ties away from
    zero ([std::round]; the encoders' bodies are missing). *)
Definition round_half_away (q : Q) : Z :=
  if Qle_bool 0%Q q then Qfloor (q + (1 # 2))%Q
  else - Qfloor (- q + (1 # 2))%Q.

(** Modelled from the spec: [to_bits_scaled(double_value, width, resolution)]
    for a two's complement field (body missing). *)
Definition to_bits_scaled (v : Q) (width : nat) (resolution : Q) : bits :=
  to_bits_signed (round_half_away (v / resolution)%Q) width.

(** Modelled from the spec: the eight binary digits of one byte, most
    significant first (part of [binary_data_to_bin], body missing). *)
Definition byte_bits (c : ascii) : bits :=
  let '(Ascii b0 b1 b2 b3 b4 b5 b6 b7) := c in [b7; b6; b5; b4; b3; b2; b1; b0].

(** Modelled from the spec: [binary_data_to_bin] (body missing), raw bytes
    to binary digits, 8 per byte, most significant first. *)
Definition binary_data_to_bin (s : list ascii) : bits := flat_map byte_bits s.

(** Modelled from the spec: [bin_to_binary_data] (body missing), binary
    digits packed 8 per byte, most significant first. *)
Fixpoint bin_to_binary_data (s : bits) : list ascii :=
  match s with
  | b7 :: b6 :: b5 :: b4 :: b3 :: b2 :: b1 :: b0 :: rest =>
      Ascii b0 b1 b2 b3 b4 b5 b6 b7 :: bin_to_binary_data rest
  | _ => []
  end.

(** *** CRC-24Q engine *)

(** Modelled from the spec: the CRC-24Q polynomial (the engine's body is
    missing). *)
Definition crc24q_poly : Z := 0x1864CFB.

(** Modelled from the spec: one shift of the 24-bit register, most
    significant bit first (the engine's body is missing). *)
Definition crc24q_shift (crc : Z) : Z :=
  let crc := Z.shiftl crc 1 in
  if Z.testbit crc 24 then Z.lxor crc crc24q_poly else crc.

(** Modelled from the spec: an entry of the 256-entry lookup table (the
    engine's body is missing). *)
Definition crc24q_table_entry (i : Z) : Z :=
  Nat.iter 8 crc24q_shift (Z.shiftl i 16).

(** Modelled from the spec: the 256-entry lookup table (the engine's body is
    missing). *)
Definition crc24q_table : list Z :=
  Eval vm_compute in map (fun i => crc24q_table_entry (Z.of_nat i)) (seq 0 256).

(** Modelled from the spec: a lookup in the table (the engine's body is
    missing). *)
Definition table_at (i : Z) : Z := nth (Z.to_nat i) crc24q_table 0.

(** Modelled from the spec: the table index for one byte, the top byte of the
    register combined with the incoming byte (the engine's body is
    missing). *)
Definition table_index (crc : Z) (byte : ascii) : Z :=
  Z.land (Z.lxor (Z.shiftr crc 16) (char_code byte)) 0xFF.

(** Modelled from the spec: the byte-wise table-driven update (the engine's
    body is missing). *)
Definition crc24q_update (crc : Z) (byte : ascii) : Z :=
  Z.lxor (Z.land (Z.shiftl crc 8) 0xFFFFFF) (table_at (table_index crc byte)).

(** Modelled from the spec: [compute_crc24q(bytes)], initial value 0, no
    final XOR (the engine's body is missing). *)
Definition compute_crc24q (bytes : list ascii) : Z :=
  fold_left crc24q_update bytes 0.

(** The CRC-24Q of the claim's words, for comparison with the table-driven
    engine: polynomial division bit by bit, most significant bit first,
    register initially 0, no final XOR.  One bit enters the register at its
    top. *)
Definition crc24q_feed_bit (crc : Z) (b : bool) : Z :=
  crc24q_shift (Z.lxor crc (Z.shiftl (Z.b2z b) 23)).

(** The CRC-24Q of the claim's words on a binary-digit string. *)
Definition crc24q_bitwise (s : bits) : Z := fold_left crc24q_feed_bit s 0.

(** Modelled from the spec: [check_CRC] (body missing), which recomputes the
    CRC over all bytes except the last 3 and compares. *)
Definition check_CRC (message : list ascii) : bool :=
  let n := List.length message in
  if (n <? 3)%nat then false
  else
    compute_crc24q (take (n - 3) message)
    =? bin_to_uint (binary_data_to_bin (drop (n - 3) message)).

(** *** Framing *)

(** Modelled from the spec: the 8-bit preamble, fixed 0xD3 ([rtcm.h] declares
    [std::bitset<8> preamble], its value is set in the missing part). *)
Definition preamble : bits := to_bits 0xD3 8.

(** Modelled from the spec: the 6 reserved bits, zero ([rtcm.h] declares
    [std::bitset<6> reserved_field]). *)
Definition reserved_field : bits := to_bits 0 6.

(** Modelled from the spec: [add_CRC] (body missing) appends the CRC24Q of
    everything preceding it. *)
Definition add_CRC (m : bits) : bits :=
  m ++ to_bits (compute_crc24q (bin_to_binary_data m)) 24.

(** Modelled from the spec: [build_message] (body missing): the body's bits
    are padded to a byte boundary with zero bits, the preamble, the reserved
    bits and the 10-bit length are prepended, the CRC is appended, and the
    packed bytes are returned. *)
Definition build_message (data : bits) : list ascii :=
  let msg_length_bits := List.length data in
  let msg_length_bytes := ((msg_length_bits + 7) / 8)%nat in
  let zeros_to_fill := (8 * msg_length_bytes - msg_length_bits)%nat in
  let msg_without_crc :=
    preamble ++ reserved_field ++ to_bits (Z.of_nat msg_length_bytes) 10
    ++ data ++ repeat false zeros_to_fill in
  bin_to_binary_data (add_CRC msg_without_crc).

(** Modelled from the spec: the binary digits [index, index + len) of a
    binary-digit string (the readers' bodies are missing). *)
Definition field (s : bits) (index len : nat) : bits := take len (drop index s).

(** Modelled from the spec: the 10-bit length field of a framed message. *)
Definition frame_length (message : list ascii) : Z :=
  bin_to_uint (field (binary_data_to_bin message) 14 10).

(** Modelled from the spec: the message type, the first 12 bits of the
    body. *)
Definition frame_type (message : list ascii) : Z :=
  bin_to_uint (field (binary_data_to_bin message) 24 12).

(** *** Message readers *)

Section Reader.

Context {Out : Type}.

(** The message number the reader expects and the size of the fixed field
    sequence of that type, in bytes. *)
Variable msg_number : Z.
Variable body_bytes : Z.
(** The decoders of the fields, applied to the body's binary digits. *)
Variable decode_fields : bits -> Out -> Out.

(** Modelled from the spec: the Message Reader (the bodies of the
    [read_MT<nnnn>] functions are missing): verify the CRC, identify the
    message type from the first 12 bits of the body, then decode the
    fields into the output parameters.  The result is the status code and
    the output parameters afterwards.  A frame whose length field does
    not match its size is malformed. *)
Definition read_message (message : list ascii) (out : Out) : Z * Out :=
  if negb (check_CRC message) then (1, out)
  else if negb (frame_length message =? body_bytes) then (1, out)
  else if negb (Z.of_nat (List.length message) =? 3 + body_bytes + 3) then (1, out)
  else if negb (frame_type message =? msg_number) then (1, out)
  else (0, decode_fields (drop 24 (binary_data_to_bin message)) out).

End Reader.

(** *** Message type 1005 *)

(** Modelled from the spec: the resolution of the ECEF coordinate fields,
    0.0001 m. *)
Definition ecef_resolution : Q := 1 # 10000.

(** Modelled from the spec: the content of message type 1005 (body of
    [print_MT1005] missing).  The field widths are those [rtcm.h] declares
    (DF002 12, DF003 12, DF021 6, DF022-DF024 1 each, DF141 1, DF025 38,
    DF142 1, DF001 1, DF026 38, DF364 2, DF027 38: 152 bits), in the order
    of the standard's table for the message. *)
Definition MT1005_content (ref_id : Z) (ecef_x ecef_y ecef_z : Q)
    (gps glonass galileo non_physical single_oscillator : bool)
    (quarter_cycle_indicator : Z) : bits :=
  to_bits 1005 12 ++ to_bits ref_id 12 ++ to_bits 0 6
  ++ [gps] ++ [glonass] ++ [galileo] ++ [non_physical]
  ++ to_bits_scaled ecef_x 38 ecef_resolution
  ++ [single_oscillator] ++ [false]
  ++ to_bits_scaled ecef_y 38 ecef_resolution
  ++ to_bits quarter_cycle_indicator 2
  ++ to_bits_scaled ecef_z 38 ecef_resolution.

(** Modelled from the spec: [print_MT1005] (body missing). *)
Definition print_MT1005 (ref_id : Z) (ecef_x ecef_y ecef_z : Q)
    (gps glonass galileo non_physical single_oscillator : bool)
    (quarter_cycle_indicator : Z) : list ascii :=
  build_message
    (MT1005_content ref_id ecef_x ecef_y ecef_z gps glonass galileo
       non_physical single_oscillator quarter_cycle_indicator).

(** The output parameters of [read_MT1005]. *)
Record MT1005 : Type := mk_MT1005 {
  ref_id : Z;
  ecef_x : Q;
  ecef_y : Q;
  ecef_z : Q;
  gps : bool;
  glonass : bool;
  galileo : bool
}.

(** Modelled from the spec: the field decoders of message type 1005 (body
    of [read_MT1005] missing), on the body's binary digits. *)
Definition decode_MT1005 (body : bits) (out : MT1005) : MT1005 :=
  {| ref_id := bin_to_uint (field body 12 12);
     gps := nth 30 body false;
     glonass := nth 31 body false;
     galileo := nth 32 body false;
     ecef_x := bin_to_double (field body 34 38) ecef_resolution;
     ecef_y := bin_to_double (field body 74 38) ecef_resolution;
     ecef_z := bin_to_double (field body 114 38) ecef_resolution |}.

(** Modelled from the spec: [read_MT1005] (body missing). *)
Definition read_MT1005 (message : list ascii) (out : MT1005) : Z * MT1005 :=
  read_message 1005 19 decode_MT1005 message out.

(** *** Lock time *)

(** A [boost::posix_time::ptime], in seconds; a default-constructed one is
    [not_a_date_time]. *)
Inductive ptime : Type :=
| not_a_date_time
| date_time (seconds : Z).

(** [boost::posix_time::ptime gps_L1_last_lock_time[64]] and its siblings. *)
Definition lock_time_slots : nat := 64.
Abbreviation lock_time_table := (list ptime) (only parsing).
Definition new_lock_time_table : lock_time_table :=
  repeat not_a_date_time lock_time_slots.

(** Modelled from the spec: [lock_time] (body missing) on the table of one
    signal: the current observation timestamp is compared against the
    stored last-change time of the slot, the slot is updated, and the
    elapsed duration is returned.  An index outside the table is a contract
    violation ([None]). *)
Definition lock_time (table : lock_time_table) (slot : nat) (current_time : Z)
  : option (Z * lock_time_table) :=
  if (slot <? lock_time_slots)%nat then
    match table !! slot with
    | Some last_lock_time =>
        let lock_duration :=
          match last_lock_time with
          | not_a_date_time => 0
          | date_time last => current_time - last
          end in
        Some (lock_duration, <[slot := date_time current_time]> table)
    | None => None
    end
  else None.

End Rtcm.

(** ** The claims' own words, for comparison with the code *)

(** The envelope header as the interface description words it: the two
    characters "GS", then four decimal digits whose value is at most 1029. *)
Definition spec_header_ok (h : list ascii) : bool :=
  match h with
  | [c0; c1; c2; c3; c4; c5] =>
      Ascii.eqb c0 "G" && Ascii.eqb c1 "S"
      && isdigit c2 && isdigit c3 && isdigit c4 && isdigit c5
      && (1000 * digit_value c2 + 100 * digit_value c3
          + 10 * digit_value c4 + digit_value c5 <=? 1029)
  | _ => false
  end.

(** A number below 10000 on four zero-padded decimal digits. *)
Definition zero_padded_decimal_4 (n : Z) : list ascii :=
  [digit_char (n / 1000); digit_char (n / 100 mod 10);
   digit_char (n / 10 mod 10); digit_char (n mod 10)].

(** A number below 10000 on four characters, right-aligned, padded with
    spaces on the left. *)
Definition space_padded_decimal_4 (n : Z) : list ascii :=
  [if n <? 1000 then SPACE else digit_char (n / 1000);
   if n <? 100 then SPACE else digit_char (n / 100 mod 10);
   if n <? 10 then SPACE else digit_char (n / 10 mod 10);
   digit_char (n mod 10)].

(** The value of a length field made of four decimal digits. *)
Definition decimal_value_4 (c2 c3 c4 c5 : ascii) : Z :=
  1000 * digit_value c2 + 100 * digit_value c3 + 10 * digit_value c4
  + digit_value c5.

(** Bit [k] of a byte, counted from the most significant one, inverted. *)
Definition flip_in_byte (k : nat) (c : ascii) : ascii :=
  let '(Ascii b0 b1 b2 b3 b4 b5 b6 b7) := c in
  match k with
  | 0%nat => Ascii b0 b1 b2 b3 b4 b5 b6 (negb b7)
  | 1%nat => Ascii b0 b1 b2 b3 b4 b5 (negb b6) b7
  | 2%nat => Ascii b0 b1 b2 b3 b4 (negb b5) b6 b7
  | 3%nat => Ascii b0 b1 b2 b3 (negb b4) b5 b6 b7
  | 4%nat => Ascii b0 b1 b2 (negb b3) b4 b5 b6 b7
  | 5%nat => Ascii b0 b1 (negb b2) b3 b4 b5 b6 b7
  | 6%nat => Ascii b0 (negb b1) b2 b3 b4 b5 b6 b7
  | 7%nat => Ascii (negb b0) b1 b2 b3 b4 b5 b6 b7
  | _ => c
  end.

(** Bit [i] of a message inverted, bits counted from the most significant bit
    of the first byte. *)
Definition flip_bit (i : nat) (message : list ascii) : list ascii :=
  alter (flip_in_byte (i mod 8)) (i / 8)%nat message.

(** A string of 1030 characters, one more than the largest body. *)
Definition long_message : string :=
  string_of_list_ascii (repeat "a"%char 1030).

(** ** The class invariant of [Rtcm_Message] *)

(** The array has [header_length + max_body_length] characters and the stored
    body length never exceeds [max_body_length]. *)
Definition message_ok (m : Rtcm_Message.t) : Prop :=
  List.length (Rtcm_Message.data_ m)
  = (Rtcm_Message.header_length + Z.to_nat Rtcm_Message.max_body_length)%nat
  /\ 0 <= Rtcm_Message.body_length_ m <= Rtcm_Message.max_body_length.

(** ** Handlers of asynchronous operations *)

(** What running a handler on a state can give: the state afterwards, a step
    the language leaves undefined ([front()] or [pop_front()] on an empty
    deque, a read past the end of an array), or nothing at all when the
    handler cannot be running (no operation of that kind was started). *)
Inductive result (A : Type) : Type :=
| Ok (a : A)
| Undefined_behaviour
| Not_a_schedule.

Arguments Ok {A} a.
Arguments Undefined_behaviour {A}.
Arguments Not_a_schedule {A}.

(** ** The write path of [Rtcm_Session] and [Tcp_Internal_Client] *)

Module Write_Path.

(** [write_msgs_] is the deque of the class; the other fields record what the
    class asked of the socket: the [async_write] operations whose handler has
    not run yet, the buffers handed to [async_write] so far, and whether the
    error branch of the handler ([room_.leave], [socket_.close]) was taken. *)
Record t : Type := mk {
  write_msgs_ : list Rtcm_Message.t;
  in_flight : nat;
  written : list (list ascii);
  closed : bool
}.

Definition new : t :=
  {| write_msgs_ := []; in_flight := 0; written := []; closed := false |}.

Inductive event : Type :=
| Deliver (msg : Rtcm_Message.t)
| Write_done (ec : bool).

Section Path.

(** The buffer that [do_write] makes of the message at the front:
    [body()], [body_length()] in [Rtcm_Session], [data()], [length()] in
    [Tcp_Internal_Client]. *)
Variable buffer : Rtcm_Message.t -> list ascii.

(** [do_write()]: [async_write] of the buffer of [write_msgs_.front()]. *)
Definition do_write (s : t) : result t :=
  match write_msgs_ s with
  | front :: _ =>
      Ok {| write_msgs_ := write_msgs_ s;
            in_flight := S (in_flight s);
            written := written s ++ [buffer front];
            closed := closed s |}
  | [] => Undefined_behaviour
  end.

(** [Rtcm_Session::deliver(msg)] and the function that
    [Tcp_Internal_Client::write(msg)] posts. *)
Definition deliver (msg : Rtcm_Message.t) (s : t) : result t :=
  let write_in_progress :=
    negb (match write_msgs_ s with [] => true | _ => false end) in
  let s1 := {| write_msgs_ := write_msgs_ s ++ [msg];
               in_flight := in_flight s;
               written := written s;
               closed := closed s |} in
  if negb write_in_progress then do_write s1 else Ok s1.

(** The handler that [do_write] gives to [async_write]; [ec] is true for an
    error. *)
Definition on_write (ec : bool) (s : t) : result t :=
  match in_flight s with
  | O => Not_a_schedule
  | S n =>
      if negb ec then
        match write_msgs_ s with
        | [] => Undefined_behaviour
        | _ :: rest =>
            let s1 := {| write_msgs_ := rest;
                         in_flight := n;
                         written := written s;
                         closed := closed s |} in
            if negb (match rest with [] => true | _ => false end)
            then do_write s1 else Ok s1
        end
      else
        Ok {| write_msgs_ := write_msgs_ s;
              in_flight := n;
              written := written s;
              closed := true |}
  end.

Definition step (e : event) (s : t) : result t :=
  match e with
  | Deliver msg => deliver msg s
  | Write_done ec => on_write ec s
  end.

Fixpoint run (events : list event) (s : t) : result t :=
  match events with
  | [] => Ok s
  | e :: events' =>
      match step e s with
      | Ok s' => run events' s'
      | Undefined_behaviour => Undefined_behaviour
      | Not_a_schedule => Not_a_schedule
      end
  end.

End Path.

(** The messages that a sequence of events delivers, in order. *)
Fixpoint delivered (events : list event) : list Rtcm_Message.t :=
  match events with
  | [] => []
  | Deliver msg :: events' => msg :: delivered events'
  | Write_done _ :: events' => delivered events'
  end.

(** Whether a sequence of events has a failed write. *)
Fixpoint failed (events : list event) : bool :=
  match events with
  | [] => false
  | Write_done ec :: events' => ec || failed events'
  | Deliver _ :: events' => failed events'
  end.

End Write_Path.

(** ** [Rtcm::Tcp_Internal_Client] *)

Module Tcp_Internal_Client.

(** [boost::asio::buffer(write_msgs_.front().data(), write_msgs_.front().length())] *)
Definition buffer (msg : Rtcm_Message.t) : list ascii :=
  take (Z.to_nat (Rtcm_Message.length msg)) (Rtcm_Message.data_ msg).

(** The function that [write(msg)] posts to the [io_context].  [write]
    takes [msg] by reference and the function captures that reference
    ([this, &msg]): it copies the referent into [write_msgs_] when the
    reactor runs it, not when [write] is called.  [referent] is what the
    reference leads to at that time: the message, or nothing any more when
    the lifetime of the object has ended, as for the loop-local of
    [Queue_Reader::do_read_queue] once its iteration is over. *)
Definition posted_write (referent : option Rtcm_Message.t) (s : Write_Path.t)
  : result Write_Path.t :=
  match referent with
  | Some msg => Write_Path.deliver buffer msg s
  | None => Undefined_behaviour
  end.

Definition on_write : bool -> Write_Path.t -> result Write_Path.t :=
  Write_Path.on_write buffer.

End Tcp_Internal_Client.

(** ** [Rtcm::Rtcm_Session] *)

Module Rtcm_Session.

(** [boost::asio::buffer(write_msgs_.front().body(), write_msgs_.front().body_length())] *)
Definition buffer (msg : Rtcm_Message.t) : list ascii := Rtcm_Message.body msg.

Definition deliver : Rtcm_Message.t -> Write_Path.t -> result Write_Path.t :=
  Write_Path.deliver buffer.

Definition on_write : bool -> Write_Path.t -> result Write_Path.t :=
  Write_Path.on_write buffer.

(** *** The read path *)

(** What a read handler starts or calls. *)
Inductive action : Type :=
| Read_header
| Read_body (n : Z)
| Room_deliver (msg : Rtcm_Message.t)
| Room_leave.

(** The operation whose handler is to run next. *)
Inductive phase : Type :=
| Reading_header
| Reading_body
| Closed.

Record t : Type := mk {
  read_msg_ : Rtcm_Message.t;
  client_says : list ascii;
  pending : phase
}.

(** The characters that [client_says += read_msg_.data()] appends: those of
    the array before its first NUL.  Without a NUL the read runs past the end
    of the array ([None]). *)
Fixpoint c_string (data : list ascii) : option (list ascii) :=
  match data with
  | [] => None
  | c :: rest =>
      if Ascii.eqb c NUL then Some []
      else match c_string rest with
           | Some s => Some (c :: s)
           | None => None
           end
  end.

(** [while (client_says.length() >= 80) client_says = client_says.substr(80, client_says.length() - 80);]
    (the lines go to the debug log); one round per unit of [fuel]. *)
Fixpoint drop_lines (fuel : nat) (says : list ascii) : list ascii :=
  match fuel with
  | O => says
  | S fuel' =>
      if (80 <=? List.length says)%nat
      then drop_lines fuel' (take (List.length says - 80) (drop 80 says))
      else says
  end.

(** The handler of [do_read_message_header] when the read succeeded and left
    the six characters [h] at the start of [read_msg_]. *)
Definition on_header (h : list ascii) (s : t) : result (t * list action) :=
  match pending s with
  | Reading_header =>
      let m := Rtcm_Message.receive_header h (read_msg_ s) in
      let '(accepted, m1) := Rtcm_Message.decode_header m in
      if accepted then
        Ok ({| read_msg_ := m1; client_says := client_says s;
               pending := Reading_body |},
            [Read_body (Rtcm_Message.body_length_ m1)])
      else
        let '(accepted2, m2) := Rtcm_Message.decode_header m1 in
        if negb accepted2 then
          match c_string (Rtcm_Message.data_ m2) with
          | Some said =>
              let says := client_says s ++ said in
              Ok ({| read_msg_ := m2;
                     client_says := drop_lines (List.length says) says;
                     pending := Reading_header |},
                  [Read_header])
          | None => Undefined_behaviour
          end
        else
          Ok ({| read_msg_ := m2; client_says := client_says s;
                 pending := Closed |},
              [Room_leave])
  | _ => Not_a_schedule
  end.

(** The handler of [do_read_message_body] when the read succeeded and left
    the [body_length()] characters [b] in the body of [read_msg_]. *)
Definition on_body (b : list ascii) (s : t) : result (t * list action) :=
  match pending s with
  | Reading_body =>
      let m :=
        {| Rtcm_Message.data_ :=
             Queue_Reader.copy_n b (List.length b) Rtcm_Message.header_length
               (Rtcm_Message.data_ (read_msg_ s));
           Rtcm_Message.body_length_ := Rtcm_Message.body_length_ (read_msg_ s) |} in
      Ok ({| read_msg_ := m; client_says := client_says s;
             pending := Reading_header |},
          [Room_deliver m; Read_header])
  | _ => Not_a_schedule
  end.

(** Either handler when the read failed. *)
Definition on_read_error (s : t) : result (t * list action) :=
  match pending s with
  | Closed => Not_a_schedule
  | _ =>
      Ok ({| read_msg_ := read_msg_ s; client_says := client_says s;
             pending := Closed |},
          [Room_leave])
  end.

(** What the socket reports to the read handlers. *)
Inductive event : Type :=
| Header_received (h : list ascii)
| Body_received (b : list ascii)
| Read_failed.

(** [async_read] completes without error once the whole buffer is filled: a
    header has [header_length] characters, a body as many as were asked
    for. *)
Definition step (e : event) (s : t) : result (t * list action) :=
  match e with
  | Header_received h =>
      if (List.length h =? Rtcm_Message.header_length)%nat
      then on_header h s else Not_a_schedule
  | Body_received b =>
      if Z.of_nat (List.length b) =? Rtcm_Message.body_length_ (read_msg_ s)
      then on_body b s else Not_a_schedule
  | Read_failed => on_read_error s
  end.

Fixpoint run (events : list event) (s : t) : result (t * list action) :=
  match events with
  | [] => Ok (s, [])
  | e :: events' =>
      match step e s with
      | Ok (s1, a1) =>
          match run events' s1 with
          | Ok (s2, a2) => Ok (s2, a1 ++ a2)
          | Undefined_behaviour => Undefined_behaviour
          | Not_a_schedule => Not_a_schedule
          end
      | Undefined_behaviour => Undefined_behaviour
      | Not_a_schedule => Not_a_schedule
      end
  end.

(** The session as [start()] leaves it, once it has joined the room:
    [do_read_message_header] has started the first read. *)
Definition started : t :=
  {| read_msg_ := Rtcm_Message.new; client_says := []; pending := Reading_header |}.

End Rtcm_Session.

(** ** The invariant of the write path *)

(** With [history] the messages delivered so far: the deque holds the
    messages that are not yet written out; either all is written and nothing
    is in flight, or the message at the front is the last one handed to
    [async_write], with its handler still to run or run with an error. *)
Definition write_path_ok (buffer : Rtcm_Message.t -> list ascii)
    (history : list Rtcm_Message.t) (s : Write_Path.t) : Prop :=
  exists c : nat,
    Write_Path.write_msgs_ s = drop c history
    /\ ((c = List.length history
         /\ Write_Path.closed s = false
         /\ Write_Path.in_flight s = 0%nat
         /\ Write_Path.written s = map buffer history)
        \/ ((c < List.length history)%nat
            /\ Write_Path.written s = map buffer (take (S c) history)
            /\ ((Write_Path.closed s = false /\ Write_Path.in_flight s = 1%nat)
                \/ (Write_Path.closed s = true
                    /\ Write_Path.in_flight s = 0%nat)))).

(** ** The invariant of the read path *)

(** [read_msg_] keeps the class invariant, and while a body is being read its
    header is one that [decode_header] accepts with the stored body
    length. *)
Definition session_ok (s : Rtcm_Session.t) : Prop :=
  message_ok (Rtcm_Session.read_msg_ s)
  /\ (Rtcm_Session.pending s = Rtcm_Session.Reading_body ->
      Rtcm_Message.decode_header (Rtcm_Session.read_msg_ s)
      = (true, Rtcm_Session.read_msg_ s)).

(** A message as the room gets it from a session: within the class
    invariant, with a header that [decode_header] accepts and that announces
    the stored body length. *)
Definition relayed_ok (msg : Rtcm_Message.t) : Prop :=
  message_ok msg
  /\ Rtcm_Message.decode_header msg = (true, msg)
  /\ 1 <= Rtcm_Message.body_length_ msg.

(** ** [Rtcm::Tcp_Server] *)

Module Tcp_Server.

Record t : Type := mk {
  first_client : bool;
  start_session : bool
}.

Definition new : t := {| first_client := true; start_session := true |}.

(** The handler of [async_accept] in [do_accept]: [ec] is true when the
    accept failed, [ec2] when [socket_.remote_endpoint(ec2)] failed (it is
    only asked for after the first client).  The result is the server
    afterwards and whether a [Rtcm_Session] was made and started; the
    handler ends by calling [do_accept] again. *)
Definition on_accept (ec ec2 : bool) (s : t) : t * bool :=
  let '(s1, session) :=
    if negb ec then
      let s0 :=
        if first_client s
        then {| first_client := false; start_session := start_session s |}
        else if ec2
             then {| first_client := first_client s; start_session := false |}
             else s in
      (s0, start_session s0)
    else (s, false) in
  ({| first_client := first_client s1; start_session := true |}, session).

(** The handlers of a sequence of accepts, with the sessions started. *)
Fixpoint run (accepts : list (bool * bool)) (s : t) : t * list bool :=
  match accepts with
  | [] => (s, [])
  | (ec, ec2) :: accepts' =>
      let '(s1, session) := on_accept ec ec2 s in
      let '(s2, sessions) := run accepts' s1 in
      (s2, session :: sessions)
  end.


End Tcp_Server.

(** * Properties *)

(** ** Characters and decimal numbers *)

Lemma length_chars (s : string) : List.length (chars s) = String.length s.
Proof. unfold chars. induction s as [|c s IH]; simpl; congruence. Qed.

Lemma char_code_range (c : ascii) : 0 <= char_code c < 256.
Proof.
  unfold char_code. pose proof (N_ascii_bounded c) as H.
  change 256 with (Z.of_N 256). lia.
Qed.

Lemma isdigit_range (c : ascii) : isdigit c = true <-> 48 <= char_code c <= 57.
Proof. unfold isdigit. rewrite andb_true_iff, !Z.leb_le. tauto. Qed.

Lemma isdigit_not_space (c : ascii) : isdigit c = true -> isspace c = false.
Proof.
  rewrite isdigit_range. intros H. unfold isspace.
  apply orb_false_iff. split; [apply Z.eqb_neq; lia|].
  apply andb_false_iff. right. apply Z.leb_gt. lia.
Qed.

Lemma eqb_char_code (c d : ascii) :
  char_code c <> char_code d -> Ascii.eqb c d = false.
Proof.
  intros H. destruct (Ascii.eqb c d) eqn:E; [|reflexivity].
  apply Ascii.eqb_eq in E. congruence.
Qed.

Lemma digit_value_range (c : ascii) :
  isdigit c = true -> 0 <= digit_value c <= 9.
Proof. rewrite isdigit_range. unfold digit_value. lia. Qed.

(** [std::stoi] on four decimal digits reads their value. *)
Lemma stoi_four_digits (c2 c3 c4 c5 : ascii) :
  isdigit c2 = true -> isdigit c3 = true -> isdigit c4 = true ->
  isdigit c5 = true ->
  stoi [c2; c3; c4; c5] = Some (decimal_value_4 c2 c3 c4 c5).
Proof.
  intros H2 H3 H4 H5.
  pose proof (digit_value_range _ H2). pose proof (digit_value_range _ H3).
  pose proof (digit_value_range _ H4). pose proof (digit_value_range _ H5).
  unfold stoi. cbn [skip_spaces]. rewrite (isdigit_not_space _ H2).
  unfold read_sign.
  rewrite (eqb_char_code c2 "-"), (eqb_char_code c2 "+");
    try (apply isdigit_range in H2; change (char_code "-") with 45;
         change (char_code "+") with 43; lia).
  rewrite H2. cbn [read_digits]. rewrite H2, H3, H4, H5.
  replace (((0 * 10 + digit_value c2) * 10 + digit_value c3) * 10
           + digit_value c4) with
    (100 * digit_value c2 + 10 * digit_value c3 + digit_value c4) by lia.
  unfold decimal_value_4, INT_MIN, INT_MAX.
  destruct (_ && _) eqn:E.
  - f_equal. lia.
  - apply andb_false_iff in E. destruct E as [E|E];
      [apply Z.leb_gt in E | apply Z.leb_gt in E]; lia.
Qed.

(** A length field that starts with a character that is neither white space,
    nor a sign, nor a digit makes [std::stoi] throw. *)
Lemma stoi_invalid_argument (c : ascii) (rest : list ascii) :
  isspace c = false -> isdigit c = false ->
  Ascii.eqb c "-" = false -> Ascii.eqb c "+" = false ->
  stoi (c :: rest) = None.
Proof.
  intros Hs Hd Hm Hp. unfold stoi. cbn [skip_spaces]. rewrite Hs.
  unfold read_sign. rewrite Hm, Hp, Hd. reflexivity.
Qed.

Lemma length_resize (n : nat) (c : ascii) (s : list ascii) :
  List.length (resize n c s) = n.
Proof.
  unfold resize. rewrite length_app, length_take, repeat_length. lia.
Qed.

(** ** [Rtcm_Message]: the transport envelope *)

Section Envelope.

Import Rtcm_Message.

Lemma body_length_value (n : Z) (m : t) :
  body_length_ (body_length n m) = Z.min n max_body_length.
Proof.
  unfold body_length, max_body_length. cbn [body_length_].
  destruct (n >? 1029) eqn:E; cbn [body_length_].
  - apply Z.gtb_lt in E. lia.
  - rewrite Z.gtb_ltb in E. apply Z.ltb_ge in E. lia.
Qed.

Lemma body_length_data (n : Z) (m : t) : data_ (body_length n m) = data_ m.
Proof. unfold body_length. destruct (_ >? _); reflexivity. Qed.

(** The header that [encode_header] writes only depends on the stored body
    length. *)
Lemma encode_header_header (m : t) :
  header (encode_header m) =
  resize header_length SPACE
    (chars "GS" ++
     setw 4 (int_to_chars
               (Z.max (Z.min (to_int (body_length_ m)) (to_int max_body_length)) 0))).
Proof.
  unfold header, encode_header. cbn [data_].
  rewrite take_app_length'; [reflexivity | symmetry; apply length_resize].
Qed.

Lemma encode_header_rest (m : t) :
  drop header_length (data_ (encode_header m)) = drop header_length (data_ m).
Proof.
  unfold encode_header. cbn [data_]. rewrite length_resize.
  rewrite drop_app_length'; [reflexivity | symmetry; apply length_resize].
Qed.

Lemma encode_header_body_length (m : t) :
  body_length_ (encode_header m) = body_length_ m.
Proof. reflexivity. Qed.

(** The header of a stored length in range, by enumeration of the range. *)
Lemma encode_header_in_range (m : t) :
  0 <= body_length_ m <= max_body_length ->
  header (encode_header m) = chars "GS" ++ space_padded_decimal_4 (body_length_ m).
Proof.
  intros Hn. rewrite encode_header_header.
  generalize dependent (body_length_ m). clear m. intros n Hn.
  unfold max_body_length in Hn.
  assert (Hall : forallb
            (fun k : nat =>
               bool_decide
                 (resize header_length SPACE
                    (chars "GS" ++
                     setw 4 (int_to_chars
                               (Z.max (Z.min (to_int (Z.of_nat k))
                                         (to_int max_body_length)) 0)))
                  = chars "GS" ++ space_padded_decimal_4 (Z.of_nat k)))
            (seq 0 1030) = true) by (vm_compute; reflexivity).
  rewrite forallb_forall in Hall.
  specialize (Hall (Z.to_nat n)).
  rewrite Z2Nat.id in Hall by lia.
  apply bool_decide_eq_true in Hall; [exact Hall|].
  apply in_seq. lia.
Qed.

(** What [decode_header] does on a header made of two characters and four
    decimal digits. *)
Lemma decode_header_digits (c0 c1 c2 c3 c4 c5 : ascii) (m : t) :
  isdigit c2 = true -> isdigit c3 = true -> isdigit c4 = true ->
  isdigit c5 = true ->
  let n := decimal_value_4 c2 c3 c4 c5 in
  let r := decode_header (receive_header [c0; c1; c2; c3; c4; c5] m) in
  (fst r = true <-> c0 = "G"%char /\ c1 = "S"%char /\ 1 <= n <= 1029)
  /\ (fst r = true -> body_length_ (snd r) = n).
Proof.
  intros H2 H3 H4 H5 n r.
  pose proof (digit_value_range _ H2). pose proof (digit_value_range _ H3).
  pose proof (digit_value_range _ H4). pose proof (digit_value_range _ H5).
  assert (Hn : 0 <= n <= 9999) by (unfold n, decimal_value_4; lia).
  subst r. unfold decode_header, receive_header. cbn [data_ body_length_].
  cbn [List.length app take header_length].
  destruct (Ascii.eqb c0 "G") eqn:E0; cbn [negb orb fst snd].
  2:{ apply Ascii.eqb_neq in E0. split; [|discriminate].
      split; [discriminate | tauto]. }
  destruct (Ascii.eqb c1 "S") eqn:E1; cbn [negb orb fst snd].
  2:{ apply Ascii.eqb_neq in E1. split; [|discriminate].
      split; [discriminate | tauto]. }
  apply Ascii.eqb_eq in E0, E1.
  rewrite take_0, (stoi_four_digits c2 c3 c4 c5 H2 H3 H4 H5). fold n.
  assert (Hs : to_size_t n = n)
    by (unfold to_size_t; apply Z.mod_small; lia).
  rewrite Hs. unfold max_body_length.
  destruct (n =? 0) eqn:Ez; cbn [fst snd body_length_].
  { apply Z.eqb_eq in Ez. split; [|discriminate].
    split; [discriminate | lia]. }
  apply Z.eqb_neq in Ez.
  destruct (n >? 1029) eqn:Eg; cbn [fst snd body_length_].
  { apply Z.gtb_lt in Eg. split; [|discriminate].
    split; [discriminate | lia]. }
  rewrite Z.gtb_ltb in Eg. apply Z.ltb_ge in Eg.
  split; [|reflexivity]. split; [intros _; repeat split; auto; lia | reflexivity].
Qed.

(** A header that does not start with "GS" is rejected and the stored body
    length is left as it was. *)
Lemma decode_header_wrong_tag (c0 c1 : ascii) (h2 : list ascii) (m : t) :
  c0 <> "G"%char \/ c1 <> "S"%char ->
  decode_header (receive_header (c0 :: c1 :: h2) m)
  = (false, receive_header (c0 :: c1 :: h2) m).
Proof.
  intros H. unfold decode_header.
  destruct (take header_length _) as [|h0 [|h1 hs]] eqn:E; try reflexivity.
  unfold receive_header in E. cbn [data_ app take header_length] in E.
  injection E as -> -> _.
  destruct H as [H|H]; apply Ascii.eqb_neq in H; rewrite H;
    [reflexivity | rewrite orb_true_r; reflexivity].
Qed.

End Envelope.

Section Envelope_Claims.

Import Rtcm_Message.

(** C5, as stated: the header "GS0000" is made of "GS" and four decimal
    digits whose value, 0, lies in 0-1029, yet [decode_header] rejects it. *)
Lemma decode_header_rejects_GS0000 :
  fst (decode_header (receive_header (chars "GS0000") new))
  <> spec_header_ok (chars "GS0000").
Proof. vm_compute. discriminate. Qed.

(** A length field that is not wholly numeric is accepted when it starts with
    digits: [std::stoi] stops at the first character it cannot use. *)
Lemma decode_header_accepts_GS12ab :
  let r := decode_header (receive_header (chars "GS12ab") new) in
  fst r = true /\ body_length_ (snd r) = 12.
Proof. vm_compute. split; reflexivity. Qed.

(** C5, amended: a header made of two characters and four decimal digits is
    accepted exactly when the two characters are 'G','S' and the decimal value
    lies in 1-1029 (a zero length is rejected), and the body length is then
    that value; a header that does not start with "GS" is rejected; so is a
    "GS" header whose length field starts with a character that is neither
    white space, a sign nor a digit; "GS0042" is accepted with body length 42,
    "GS9999" and "XX0010" are rejected. *)
Theorem decode_header_accepts_1_to_1029 :
  (forall (c0 c1 c2 c3 c4 c5 : ascii) (m : t),
      isdigit c2 = true -> isdigit c3 = true -> isdigit c4 = true ->
      isdigit c5 = true ->
      let n := decimal_value_4 c2 c3 c4 c5 in
      let r := decode_header (receive_header [c0; c1; c2; c3; c4; c5] m) in
      (fst r = true <-> c0 = "G"%char /\ c1 = "S"%char /\ 1 <= n <= 1029)
      /\ (fst r = true -> body_length_ (snd r) = n))
  /\ (forall (c0 c1 : ascii) (h2 : list ascii) (m : t),
         c0 <> "G"%char \/ c1 <> "S"%char ->
         fst (decode_header (receive_header (c0 :: c1 :: h2) m)) = false)
  /\ (forall (c : ascii) (rest : list ascii) (m : t),
         isspace c = false -> isdigit c = false ->
         c <> "-"%char -> c <> "+"%char ->
         fst (decode_header
                (receive_header ("G"%char :: "S"%char :: c :: rest) m)) = false)
  /\ (let r := decode_header (receive_header (chars "GS0042") new) in
      fst r = true /\ body_length_ (snd r) = 42)
  /\ fst (decode_header (receive_header (chars "GS9999") new)) = false
  /\ fst (decode_header (receive_header (chars "XX0010") new)) = false.
Proof.
  split; [exact decode_header_digits|].
  split.
  { intros c0 c1 h2 m H. rewrite decode_header_wrong_tag by exact H. reflexivity. }
  split.
  { intros c rest m Hs Hd Hm Hp.
    unfold decode_header, receive_header. cbn [data_ body_length_].
    cbn [app take header_length]. cbn [Ascii.eqb Bool.eqb negb orb].
    rewrite stoi_invalid_argument; auto; apply Ascii.eqb_neq; assumption. }
  vm_compute. repeat split; reflexivity.
Qed.

Lemma decode_header_accepts_1_to_1029_witness :
  (isdigit "0" = true /\ isdigit "0" = true /\ isdigit "4" = true
   /\ isdigit "2" = true)
  /\ fst (decode_header (receive_header (chars "GS0042") new)) = true.
Proof.
  split; [repeat split; reflexivity|].
  destruct (proj1 decode_header_accepts_1_to_1029 "G" "S" "0" "0" "4" "2" new
              eq_refl eq_refl eq_refl eq_refl)%char as [[_ Haccept] _].
  apply Haccept.
  split; [reflexivity|]. split; [reflexivity|].
  vm_compute. split; discriminate.
Defined.

(** C6, as stated: for n = 42 the header written is not "GS0042". *)
Lemma encode_header_42_not_zero_padded :
  header (encode_header (body_length 42 new))
  <> chars "GS" ++ zero_padded_decimal_4 42.
Proof. vm_compute. discriminate. Qed.

(** C6, amended: for every body length n with 0 <= n <= 1029, after
    [body_length(n)], [encode_header] writes a 6-byte header equal to "GS"
    followed by the decimal representation of n right-aligned on four
    characters and padded with spaces on the left (n = 42 gives "GS  42");
    the rest of the buffer and the stored length are left as they were. *)
Theorem encode_header_space_padded (n : Z) (m : t) :
  0 <= n <= 1029 ->
  let m' := encode_header (body_length n m) in
  header m' = chars "GS" ++ space_padded_decimal_4 n
  /\ List.length (header m') = 6%nat
  /\ drop header_length (data_ m') = drop header_length (data_ m)
  /\ body_length_ m' = n.
Proof.
  intros Hn m'. subst m'.
  assert (Hb : body_length_ (body_length n m) = n)
    by (rewrite body_length_value; unfold max_body_length; lia).
  assert (Hh : header (encode_header (body_length n m))
               = chars "GS" ++ space_padded_decimal_4 n).
  { rewrite encode_header_in_range; rewrite Hb; [reflexivity|].
    unfold max_body_length. lia. }
  split; [exact Hh|]. split; [rewrite Hh; reflexivity|].
  split; [|rewrite encode_header_body_length; exact Hb].
  rewrite encode_header_rest, body_length_data. reflexivity.
Qed.

Lemma encode_header_space_padded_witness :
  0 <= 42 <= 1029
  /\ header (encode_header (body_length 42 new)) = chars "GS  42".
Proof.
  split; [lia|].
  apply (encode_header_space_padded 42 new). lia.
Defined.

(** The envelope survives the trip: a header written by [encode_header] for a
    body length in 1-1029 is accepted by [decode_header] with that length. *)
Lemma decode_encode_header (n : Z) (m : t) :
  1 <= n <= 1029 ->
  let r := decode_header (encode_header (body_length n m)) in
  fst r = true /\ body_length_ (snd r) = n.
Proof.
  intros Hn.
  assert (Hall : forallb
            (fun k : nat =>
               bool_decide
                 (stoi (space_padded_decimal_4 (Z.of_nat k)) = Some (Z.of_nat k)))
            (seq 0 1030) = true) by (vm_compute; reflexivity).
  rewrite forallb_forall in Hall. specialize (Hall (Z.to_nat n)).
  rewrite Z2Nat.id in Hall by lia.
  apply bool_decide_eq_true in Hall; [|apply in_seq; lia].
  assert (Hb : body_length_ (body_length n m) = n)
    by (rewrite body_length_value; unfold max_body_length; lia).
  assert (Hh : header (encode_header (body_length n m))
               = chars "GS" ++ space_padded_decimal_4 n).
  { rewrite encode_header_in_range; rewrite Hb; [reflexivity|].
    unfold max_body_length. lia. }
  cbv zeta. unfold decode_header.
  change (take header_length (data_ (encode_header (body_length n m))))
    with (header (encode_header (body_length n m))).
  rewrite Hh. cbn [chars list_ascii_of_string app space_padded_decimal_4].
  cbn [Ascii.eqb Bool.eqb negb orb].
  change [_; _; _; _] with (space_padded_decimal_4 n). rewrite Hall.
  cbn [body_length_]. unfold to_size_t, max_body_length.
  rewrite Z.mod_small by lia.
  destruct (n =? 0) eqn:Ez; [apply Z.eqb_eq in Ez; lia|].
  destruct (n >? 1029) eqn:Eg; [apply Z.gtb_lt in Eg; lia|].
  split; reflexivity.
Qed.

End Envelope_Claims.

(** ** [Queue_Reader]: from the queue to the envelope *)

Section Queue_Reader_Claims.

Import Rtcm_Message Queue_Reader.

Lemma envelope_body_length (message : string) :
  body_length_ (envelope message)
  = Z.min (Z.of_nat (String.length message)) max_body_length.
Proof.
  unfold envelope. rewrite encode_header_body_length. cbn [body_length_].
  apply body_length_value.
Qed.

(** The body of the envelope holds the leading bytes of the message, as many
    as the stored body length says. *)
Lemma envelope_body (message : string) :
  body (envelope message)
  = take (Z.to_nat (Z.min (Z.of_nat (String.length message)) max_body_length))
      (chars message).
Proof.
  unfold body. rewrite envelope_body_length.
  unfold envelope. rewrite encode_header_rest. cbn [data_].
  rewrite body_length_value, body_length_data.
  set (n := Z.to_nat (Z.min (Z.of_nat (String.length message)) max_body_length)).
  assert (Hn : (n <= String.length message)%nat) by (unfold n; lia).
  unfold copy_n.
  rewrite drop_app_length'
    by (unfold new; cbn [data_]; rewrite length_take, repeat_length;
        unfold header_length, max_body_length; lia).
  rewrite take_app_length'
    by (rewrite length_take, length_app, length_chars; cbn [List.length]; lia).
  rewrite take_app_le by (rewrite length_chars; lia).
  reflexivity.
Qed.

Lemma envelope_header (message : string) :
  header (envelope message)
  = chars "GS"
    ++ space_padded_decimal_4
         (Z.min (Z.of_nat (String.length message)) max_body_length).
Proof.
  rewrite <- envelope_body_length. unfold envelope.
  rewrite encode_header_in_range; [reflexivity|].
  cbn [body_length_]. rewrite body_length_value. unfold max_body_length. lia.
Qed.

(** [do_read_queue] on a sequence with the sentinel: it returns at the first
    sentinel, having written the envelope of each message before it, in
    order. *)
Lemma do_read_queue_sentinel (before after : list string) :
  ~ In "Goodbye"%string before ->
  do_read_queue (before ++ "Goodbye"%string :: after)
  = (map envelope before, Returned after).
Proof.
  induction before as [|message before IH]; intros Hnot.
  - reflexivity.
  - cbn [app do_read_queue map].
    destruct (String.eqb message "Goodbye") eqn:E.
    + apply String.eqb_eq in E. exfalso. apply Hnot. left. exact E.
    + rewrite IH; [reflexivity|]. intros Hin. apply Hnot. right. exact Hin.
Qed.

(** Without the sentinel the reader is left waiting on the emptied queue. *)
Lemma do_read_queue_no_sentinel (popped : list string) :
  ~ In "Goodbye"%string popped ->
  do_read_queue popped = (map envelope popped, Waiting).
Proof.
  induction popped as [|message popped IH]; intros Hnot.
  - reflexivity.
  - cbn [do_read_queue map].
    destruct (String.eqb message "Goodbye") eqn:E.
    + apply String.eqb_eq in E. exfalso. apply Hnot. left. exact E.
    + rewrite IH; [reflexivity|]. intros Hin. apply Hnot. right. exact Hin.
Qed.

(** A sequence that contains the sentinel splits at its first occurrence. *)
Lemma first_sentinel (popped : list string) :
  In "Goodbye"%string popped ->
  exists before after,
    popped = before ++ "Goodbye"%string :: after
    /\ ~ In "Goodbye"%string before.
Proof.
  induction popped as [|message popped IH]; intros Hin; [destruct Hin|].
  destruct (String.eqb message "Goodbye") eqn:E.
  - apply String.eqb_eq in E. subst message.
    exists [], popped. split; [reflexivity | intros []].
  - apply String.eqb_neq in E. destruct Hin as [Heq|Hin]; [congruence|].
    destruct (IH Hin) as (before & after & -> & Hnot).
    exists (message :: before), after. split; [reflexivity|].
    intros [Heq|Hin']; [congruence | exact (Hnot Hin')].
Qed.

(** C9, as stated: a message of 1030 bytes before the sentinel is forwarded
    with a body length that is not the message length. *)
Lemma do_read_queue_long_message_body_length :
  map body_length_ (fst (do_read_queue [long_message; "Goodbye"%string]))
  <> [Z.of_nat (String.length long_message)].
Proof. vm_compute. discriminate. Qed.

(** C9, amended: for every finite sequence of popped strings that contains
    the sentinel "Goodbye", [do_read_queue] returns at the first occurrence
    of the sentinel without calling [c->write] for it, and for every message
    popped before it calls [c->write] once, in pop order, with the envelope
    of that message; the envelope of a message has its body length set to
    the smaller of the message length and 1029, its body holding that many
    leading bytes of the message, and its header encoded from that length.
    What the client does with the message it is given a reference to is no
    part of the statement. *)
Theorem do_read_queue_forwards_until_sentinel (popped : list string) :
  In "Goodbye"%string popped ->
  (exists before after,
      popped = before ++ "Goodbye"%string :: after
      /\ ~ In "Goodbye"%string before
      /\ do_read_queue popped = (map envelope before, Returned after))
  /\ (forall message : string,
         let n := Z.min (Z.of_nat (String.length message)) max_body_length in
         body_length_ (envelope message) = n
         /\ body (envelope message) = take (Z.to_nat n) (chars message)
         /\ header (envelope message) = chars "GS" ++ space_padded_decimal_4 n).
Proof.
  intros Hin. split.
  - destruct (first_sentinel popped Hin) as (before & after & -> & Hnot).
    exists before, after. split; [reflexivity|]. split; [exact Hnot|].
    apply do_read_queue_sentinel. exact Hnot.
  - intros message n. subst n.
    split; [apply envelope_body_length|].
    split; [apply envelope_body | apply envelope_header].
Qed.

Lemma do_read_queue_forwards_until_sentinel_witness :
  In "Goodbye"%string ["RTCM"; "Goodbye"; "late"]%string
  /\ exists before after,
      ["RTCM"; "Goodbye"; "late"]%string = before ++ "Goodbye"%string :: after
      /\ ~ In "Goodbye"%string before
      /\ do_read_queue ["RTCM"; "Goodbye"; "late"]%string
         = (map envelope before, Returned after).
Proof.
  split; [right; left; reflexivity|].
  exact (proj1 (do_read_queue_forwards_until_sentinel
                  ["RTCM"; "Goodbye"; "late"]%string
                  (or_intror (or_introl eq_refl)))).
Defined.

(** C10: [body_length(n)] stores min(n, 1029) and leaves the buffer alone;
    there is no error to report.  The envelope that [Queue_Reader] builds for
    a message therefore has min(length, 1029) body bytes, the leading bytes
    of the message: a message of 1030 bytes is cut to its first 1029. *)
Theorem body_length_clamps_to_max :
  (forall (n : Z) (m : t),
      body_length_ (body_length n m) = Z.min n max_body_length
      /\ data_ (body_length n m) = data_ m)
  /\ (forall message : string,
         let n := Z.min (Z.of_nat (String.length message)) max_body_length in
         body_length_ (envelope message) = n
         /\ body (envelope message) = take (Z.to_nat n) (chars message))
  /\ (String.length long_message = 1030%nat
      /\ body_length_ (envelope long_message) = 1029
      /\ body (envelope long_message) = repeat "a"%char 1029).
Proof.
  split.
  { intros n m. split; [apply body_length_value | apply body_length_data]. }
  split.
  { intros message n. subst n.
    split; [apply envelope_body_length | apply envelope_body]. }
  vm_compute. repeat split; reflexivity.
Qed.

End Queue_Reader_Claims.

(** ** [Rtcm_Listener_Room]: the replay ring *)

Section Room_Claims.

Import Rtcm_Listener_Room.

(** Whatever the ring held, pushing a message and trimming leaves that
    message alone. *)
Lemma trim_push (recent : list Rtcm_Message.t) (msg : Rtcm_Message.t) :
  trim (recent ++ [msg]) = [msg].
Proof.
  induction recent as [|old recent IH]; [reflexivity|].
  cbn [app trim]. unfold max_recent_msgs.
  destruct (1 <? _)%nat eqn:E; [exact IH|].
  apply Nat.ltb_ge in E. cbn [List.length] in E.
  rewrite length_app in E. cbn [List.length] in E. lia.
Qed.

Lemma deliver_recent (msg : Rtcm_Message.t) (r : t) :
  recent_msgs_ (fst (deliver msg r)) = [msg].
Proof. unfold deliver. cbn [fst recent_msgs_]. apply trim_push. Qed.

Lemma deliver_no_participant (msg : Rtcm_Message.t) (r : t) :
  participants_ r = ∅ ->
  deliver msg r = ({| participants_ := ∅; recent_msgs_ := [msg] |}, []).
Proof.
  intros H. unfold deliver. rewrite trim_push, H, elements_empty. reflexivity.
Qed.

Lemma run_cons (o : operation) (ops : list operation) (r : t) :
  fst (run (o :: ops) r) = fst (run ops (fst (step o r))).
Proof.
  cbn [run]. destruct (step o r) as [r1 d1]. cbn [fst].
  destruct (run ops r1) as [r2 d2]. reflexivity.
Qed.

(** Operations other than [deliver] leave the ring as it is. *)
Lemma run_no_deliver (ops : list operation) (r : t) :
  last_delivered ops = None ->
  recent_msgs_ (fst (run ops r)) = recent_msgs_ r.
Proof.
  revert r. induction ops as [|o ops IH]; intros r H; [reflexivity|].
  cbn [last_delivered] in H.
  destruct (last_delivered ops) as [m'|]; [discriminate|].
  rewrite run_cons, IH by reflexivity.
  destruct o; [reflexivity | reflexivity | discriminate].
Qed.

(** The ring invariant: once a message was delivered, the ring holds the
    last delivered message and nothing else. *)
Lemma run_recent (ops : list operation) (r : t) (m : Rtcm_Message.t) :
  last_delivered ops = Some m ->
  recent_msgs_ (fst (run ops r)) = [m].
Proof.
  revert r. induction ops as [|o ops IH]; intros r H; [discriminate|].
  cbn [last_delivered] in H. rewrite run_cons.
  destruct (last_delivered ops) as [m'|] eqn:E.
  - injection H as ->. apply IH. reflexivity.
  - rewrite run_no_deliver by exact E.
    destruct o; try discriminate. injection H as ->.
    cbn [step]. apply deliver_recent.
Qed.

(** C8: a [deliver] into a room without participants calls no listener and
    leaves the message in the replay ring; after every [deliver] the ring
    holds exactly the message just delivered; and after any sequence of
    operations with at least one [deliver], a participant that joins is
    handed exactly one message, the most recently delivered one. *)
Theorem room_replays_last_delivered :
  (forall (msg : Rtcm_Message.t) (r : t),
      participants_ r = ∅ ->
      deliver msg r = ({| participants_ := ∅; recent_msgs_ := [msg] |}, []))
  /\ (forall (msg : Rtcm_Message.t) (r : t),
         recent_msgs_ (fst (deliver msg r)) = [msg])
  /\ (forall (ops : list operation) (r : t) (m : Rtcm_Message.t)
             (p : participant),
         last_delivered ops = Some m ->
         let r' := fst (run ops r) in
         recent_msgs_ r' = [m]
         /\ snd (join p r') = [(p, m)]
         /\ p ∈ participants_ (fst (join p r'))).
Proof.
  split; [exact deliver_no_participant|].
  split; [exact deliver_recent|].
  intros ops r m p H r'. subst r'.
  pose proof (run_recent ops r m H) as Hr.
  split; [exact Hr|]. unfold join. cbn [fst snd participants_].
  rewrite Hr. split; [reflexivity | set_solver].
Qed.

Lemma room_replays_last_delivered_witness :
  participants_ new = ∅
  /\ last_delivered
       [Deliver (Rtcm_Message.body_length 1 Rtcm_Message.new);
        Deliver (Rtcm_Message.body_length 2 Rtcm_Message.new); Leave 3%nat]
     = Some (Rtcm_Message.body_length 2 Rtcm_Message.new)
  /\ snd (join 7%nat
            (fst (run [Deliver (Rtcm_Message.body_length 1 Rtcm_Message.new);
                       Deliver (Rtcm_Message.body_length 2 Rtcm_Message.new);
                       Leave 3%nat] new)))
     = [(7%nat, Rtcm_Message.body_length 2 Rtcm_Message.new)]
  /\ fst (deliver Rtcm_Message.new new)
     = {| participants_ := ∅; recent_msgs_ := [Rtcm_Message.new] |}.
Proof.
  split; [reflexivity|]. split; [reflexivity|]. split.
  - apply (proj2 (proj2 room_replays_last_delivered)
             [Deliver (Rtcm_Message.body_length 1 Rtcm_Message.new);
              Deliver (Rtcm_Message.body_length 2 Rtcm_Message.new);
              Leave 3%nat]
             new (Rtcm_Message.body_length 2 Rtcm_Message.new) 7%nat eq_refl).
  - rewrite (proj1 room_replays_last_delivered Rtcm_Message.new new eq_refl).
    reflexivity.
Defined.

End Room_Claims.

(** ** Lock time *)

Section Lock_Time_Claims.

Import Rtcm.

(** C7: on a table of 64 slots and for a slot in 0-63, a call of [lock_time]
    with timestamp t stores t in the slot, and a second call with the same
    slot and the same timestamp returns a duration of 0. *)
Theorem lock_time_same_timestamp (table : lock_time_table) (slot : nat) (t : Z) :
  List.length table = lock_time_slots ->
  (slot < lock_time_slots)%nat ->
  exists (d1 : Z) (table1 : lock_time_table),
    lock_time table slot t = Some (d1, table1)
    /\ table1 !! slot = Some (date_time t)
    /\ List.length table1 = lock_time_slots
    /\ exists table2 : lock_time_table,
        lock_time table1 slot t = Some (0, table2)
        /\ table2 !! slot = Some (date_time t).
Proof.
  intros Hlen Hslot.
  assert (Hlt : (slot <? lock_time_slots)%nat = true) by (apply Nat.ltb_lt; lia).
  destruct (lookup_lt_is_Some_2 table slot ltac:(lia)) as [last Hlast].
  assert (Hstored : <[slot := date_time t]> table !! slot = Some (date_time t))
    by (apply list_lookup_insert_eq; lia).
  unfold lock_time. rewrite Hlt, Hlast.
  eexists _, _. split; [reflexivity|].
  split; [exact Hstored|].
  split; [rewrite length_insert; exact Hlen|].
  rewrite Hstored. eexists. split.
  - rewrite Z.sub_diag. reflexivity.
  - apply list_lookup_insert_eq. rewrite length_insert. lia.
Qed.

Lemma lock_time_same_timestamp_witness :
  (List.length new_lock_time_table = lock_time_slots
   /\ (5 < lock_time_slots)%nat)
  /\ exists (d1 : Z) (table1 : lock_time_table),
      lock_time new_lock_time_table 5 100 = Some (d1, table1)
      /\ table1 !! 5%nat = Some (date_time 100)
      /\ List.length table1 = lock_time_slots
      /\ exists table2 : lock_time_table,
          lock_time table1 5 100 = Some (0, table2)
          /\ table2 !! 5%nat = Some (date_time 100).
Proof.
  split; [split; [reflexivity | unfold lock_time_slots; lia]|].
  apply (lock_time_same_timestamp new_lock_time_table 5 100);
    [reflexivity | unfold lock_time_slots; lia].
Defined.

(** A slot outside the table is refused. *)
Lemma lock_time_out_of_range (table : lock_time_table) (slot : nat) (t : Z) :
  (lock_time_slots <= slot)%nat -> lock_time table slot t = None.
Proof.
  intros H. unfold lock_time.
  destruct (slot <? lock_time_slots)%nat eqn:E; [|reflexivity].
  apply Nat.ltb_lt in E. lia.
Qed.

End Lock_Time_Claims.

(** ** BitField codec *)

Section Bit_Fields.

Import Rtcm.

Lemma length_low_bits (width : nat) (v : Z) :
  List.length (low_bits width v) = width.
Proof. induction width as [|w IH]; cbn [low_bits List.length]; congruence. Qed.

Lemma length_to_bits (v : Z) (width : nat) :
  List.length (to_bits v width) = width.
Proof. apply length_low_bits. Qed.

Lemma bin_to_uint_acc (s : bits) (acc : Z) :
  fold_left (fun a (b : bool) => 2 * a + Z.b2z b) s acc
  = acc * 2 ^ Z.of_nat (List.length s) + bin_to_uint s.
Proof.
  unfold bin_to_uint. revert acc.
  induction s as [|b s IH]; intros acc.
  - cbn [fold_left List.length]. change (2 ^ Z.of_nat 0) with 1. lia.
  - cbn [fold_left List.length]. rewrite IH, (IH (2 * 0 + Z.b2z b)).
    rewrite Nat2Z.inj_succ, Z.pow_succ_r by lia. lia.
Qed.

Lemma bin_to_uint_cons (b : bool) (s : bits) :
  bin_to_uint (b :: s)
  = Z.b2z b * 2 ^ Z.of_nat (List.length s) + bin_to_uint s.
Proof.
  unfold bin_to_uint at 1. cbn [fold_left]. rewrite bin_to_uint_acc. lia.
Qed.

Lemma bin_to_uint_app (s1 s2 : bits) :
  bin_to_uint (s1 ++ s2)
  = bin_to_uint s1 * 2 ^ Z.of_nat (List.length s2) + bin_to_uint s2.
Proof.
  unfold bin_to_uint at 1. rewrite fold_left_app, bin_to_uint_acc.
  reflexivity.
Qed.

Lemma bin_to_uint_range (s : bits) :
  0 <= bin_to_uint s < 2 ^ Z.of_nat (List.length s).
Proof.
  induction s as [|b s IH].
  - cbn. lia.
  - rewrite bin_to_uint_cons. cbn [List.length].
    rewrite Nat2Z.inj_succ, Z.pow_succ_r by lia.
    destruct b; cbn [Z.b2z]; lia.
Qed.

(** Binary-digit strings of one length with one value are equal. *)
Lemma bin_to_uint_inj (s1 s2 : bits) :
  List.length s1 = List.length s2 ->
  bin_to_uint s1 = bin_to_uint s2 -> s1 = s2.
Proof.
  revert s2. induction s1 as [|b1 s1 IH]; intros [|b2 s2] Hlen Hval;
    try discriminate; [reflexivity|].
  cbn [List.length] in Hlen. apply Nat.succ_inj in Hlen.
  rewrite !bin_to_uint_cons, Hlen in Hval.
  pose proof (bin_to_uint_range s1) as R1.
  pose proof (bin_to_uint_range s2) as R2.
  rewrite Hlen in R1.
  destruct b1, b2; cbn [Z.b2z] in Hval; try lia;
    f_equal; apply IH; auto; lia.
Qed.

Lemma bin_to_uint_low_bits (width : nat) (v : Z) :
  bin_to_uint (low_bits width v) = v mod 2 ^ Z.of_nat width.
Proof.
  induction width as [|w IH].
  - cbn. rewrite Z.mod_1_r. reflexivity.
  - cbn [low_bits]. rewrite bin_to_uint_cons, length_low_bits, IH.
    rewrite Nat2Z.inj_succ, Z.pow_succ_r by lia.
    rewrite (Z.mul_comm 2), Z.rem_mul_r by lia.
    rewrite Z.testbit_spec' by lia. lia.
Qed.

(** A value that fits the field is not changed by the saturation, and
    decodes back to itself. *)
Lemma to_bits_fits (v : Z) (width : nat) :
  0 <= v < 2 ^ Z.of_nat width -> to_bits v width = low_bits width v.
Proof. intros H. unfold to_bits. f_equal. lia. Qed.

Lemma bin_to_uint_to_bits (v : Z) (width : nat) :
  0 <= v < 2 ^ Z.of_nat width -> bin_to_uint (to_bits v width) = v.
Proof.
  intros H. rewrite to_bits_fits, bin_to_uint_low_bits by exact H.
  apply Z.mod_small. exact H.
Qed.

Lemma length_byte_bits (c : ascii) : List.length (byte_bits c) = 8%nat.
Proof. destruct c. reflexivity. Qed.

Lemma length_binary_data_to_bin (s : list ascii) :
  List.length (binary_data_to_bin s) = (8 * List.length s)%nat.
Proof.
  unfold binary_data_to_bin. induction s as [|c s IH]; [reflexivity|].
  cbn [flat_map List.length]. rewrite length_app, IH, length_byte_bits. lia.
Qed.

Lemma binary_data_to_bin_app (s1 s2 : list ascii) :
  binary_data_to_bin (s1 ++ s2)
  = binary_data_to_bin s1 ++ binary_data_to_bin s2.
Proof. apply flat_map_app. Qed.

(** Packing undoes unpacking, whatever follows. *)
Lemma bin_to_binary_data_app (bytes : list ascii) (rest : bits) :
  bin_to_binary_data (binary_data_to_bin bytes ++ rest)
  = bytes ++ bin_to_binary_data rest.
Proof.
  induction bytes as [|c bytes IH]; [reflexivity|].
  destruct c. cbn [binary_data_to_bin flat_map byte_bits app bin_to_binary_data].
  fold (binary_data_to_bin bytes). rewrite IH. reflexivity.
Qed.

Lemma bin_to_binary_data_unpack (bytes : list ascii) :
  bin_to_binary_data (binary_data_to_bin bytes) = bytes.
Proof.
  rewrite <- (app_nil_r (binary_data_to_bin bytes)), bin_to_binary_data_app.
  apply app_nil_r.
Qed.

(** Unpacking undoes packing on a whole number of bytes. *)
Lemma binary_data_to_bin_pack (k : nat) (s : bits) :
  List.length s = (8 * k)%nat ->
  binary_data_to_bin (bin_to_binary_data s) = s.
Proof.
  revert s. induction k as [|k IH]; intros s Hlen.
  - destruct s; [reflexivity | cbn [List.length] in Hlen; lia].
  - do 8 (destruct s as [|? s]; [cbn [List.length] in Hlen; lia|]).
    cbn [bin_to_binary_data binary_data_to_bin flat_map byte_bits app].
    fold (binary_data_to_bin (bin_to_binary_data s)).
    rewrite IH; [reflexivity|]. cbn [List.length] in Hlen. lia.
Qed.

Lemma length_bin_to_binary_data (k : nat) (s : bits) :
  List.length s = (8 * k)%nat -> List.length (bin_to_binary_data s) = k.
Proof.
  intros Hlen.
  pose proof (length_binary_data_to_bin (bin_to_binary_data s)) as H.
  rewrite (binary_data_to_bin_pack k s Hlen) in H. lia.
Qed.

(** Packing splits at a byte boundary. *)
Lemma bin_to_binary_data_split (k : nat) (s1 s2 : bits) :
  List.length s1 = (8 * k)%nat ->
  bin_to_binary_data (s1 ++ s2)
  = bin_to_binary_data s1 ++ bin_to_binary_data s2.
Proof.
  intros Hlen.
  rewrite <- (binary_data_to_bin_pack k s1 Hlen) at 1.
  apply bin_to_binary_data_app.
Qed.

End Bit_Fields.

(** ** CRC-24Q engine *)

Section CRC24Q.

Import Rtcm.

(** *** Exclusive or on bounded numbers *)

Lemma lxor_cancel_l (a b : Z) : Z.lxor a b = a -> b = 0.
Proof.
  intros H. apply (f_equal (Z.lxor a)) in H.
  rewrite <- Z.lxor_assoc, Z.lxor_nilpotent, Z.lxor_0_l in H. exact H.
Qed.

Lemma lxor_mod_pow2 (a b n : Z) :
  0 <= n ->
  Z.lxor a b mod 2 ^ n = Z.lxor (a mod 2 ^ n) (b mod 2 ^ n).
Proof.
  intros Hn. apply Z.bits_inj'. intros i Hi.
  rewrite Z.lxor_spec. destruct (Z.lt_ge_cases i n) as [Hlt|Hge].
  - rewrite !Z.mod_pow2_bits_low by lia. apply Z.lxor_spec.
  - rewrite !Z.mod_pow2_bits_high by lia. reflexivity.
Qed.

Lemma lxor_range (a b n : Z) :
  0 <= n -> 0 <= a < 2 ^ n -> 0 <= b < 2 ^ n -> 0 <= Z.lxor a b < 2 ^ n.
Proof.
  intros Hn Ha Hb.
  rewrite <- (Z.mod_small a (2 ^ n) Ha), <- (Z.mod_small b (2 ^ n) Hb).
  rewrite <- lxor_mod_pow2 by exact Hn.
  apply Z.mod_pos_bound. lia.
Qed.

(** *** The lookup table *)

(** A property checked on the 256 indices holds on 0-255. *)
Lemma forall_index (P : Z -> bool) :
  forallb (fun k : nat => P (Z.of_nat k)) (seq 0 256) = true ->
  forall i : Z, 0 <= i < 256 -> P i = true.
Proof.
  intros H i Hi. rewrite forallb_forall in H.
  specialize (H (Z.to_nat i)). rewrite Z2Nat.id in H by lia.
  apply H. apply in_seq. lia.
Qed.

Lemma table_at_entry (i : Z) :
  0 <= i < 256 -> table_at i = crc24q_table_entry i.
Proof.
  intros Hi.
  apply Z.eqb_eq.
  apply (forall_index (fun i => table_at i =? crc24q_table_entry i));
    [vm_compute; reflexivity | exact Hi].
Qed.

Lemma table_at_range (i : Z) : 0 <= i < 256 -> 0 <= table_at i < 2 ^ 24.
Proof.
  intros Hi.
  pose proof (forall_index
                (fun i => (0 <=? table_at i) && (table_at i <? 2 ^ 24))
                ltac:(vm_compute; reflexivity) i Hi) as H.
  cbv beta in H. apply andb_true_iff in H. destruct H as [H1 H2].
  apply Z.leb_le in H1. apply Z.ltb_lt in H2. lia.
Qed.

(** The table is linear for the exclusive or. *)
Lemma table_at_lxor (i j : Z) :
  0 <= i < 256 -> 0 <= j < 256 ->
  table_at (Z.lxor i j) = Z.lxor (table_at i) (table_at j).
Proof.
  intros Hi Hj.
  pose proof (forall_index
                (fun i =>
                   forallb
                     (fun k : nat =>
                        table_at (Z.lxor i (Z.of_nat k))
                        =? Z.lxor (table_at i) (table_at (Z.of_nat k)))
                     (seq 0 256))
                ltac:(vm_compute; reflexivity) i Hi) as H.
  cbv beta in H.
  apply Z.eqb_eq.
  exact (forall_index
           (fun j => table_at (Z.lxor i j) =? Z.lxor (table_at i) (table_at j))
           H j Hj).
Qed.

(** Only the entry of index 0 has a zero low byte. *)
Lemma table_at_low_byte (i : Z) :
  0 <= i < 256 -> table_at i mod 256 = 0 -> i = 0.
Proof.
  intros Hi Hz.
  pose proof (forall_index
                (fun i => negb (table_at i mod 256 =? 0) || (i =? 0))
                ltac:(vm_compute; reflexivity) i Hi) as H.
  cbv beta in H. apply orb_true_iff in H. destruct H as [H|H].
  - apply negb_true_iff, Z.eqb_neq in H. contradiction.
  - apply Z.eqb_eq in H. exact H.
Qed.

Lemma table_at_nonzero (i : Z) : 0 < i < 256 -> table_at i <> 0.
Proof.
  intros Hi Hz. assert (i = 0); [|lia].
  apply table_at_low_byte; [lia | rewrite Hz; reflexivity].
Qed.

(** *** The byte-wise update *)

Lemma crc24q_update_eq (crc : Z) (byte : ascii) :
  crc24q_update crc byte
  = Z.lxor ((crc * 2 ^ 8) mod 2 ^ 24) (table_at (table_index crc byte)).
Proof.
  unfold crc24q_update.
  change 0xFFFFFF with (Z.ones 24).
  rewrite Z.land_ones, Z.shiftl_mul_pow2 by lia. reflexivity.
Qed.

Lemma table_index_eq (crc : Z) (byte : ascii) :
  table_index crc byte = Z.lxor ((crc / 2 ^ 16) mod 2 ^ 8) (char_code byte).
Proof.
  unfold table_index. change 0xFF with (Z.ones 8).
  rewrite Z.land_ones, Z.shiftr_div_pow2, lxor_mod_pow2 by lia.
  f_equal. apply Z.mod_small. apply char_code_range.
Qed.

Lemma table_index_range (crc : Z) (byte : ascii) :
  0 <= table_index crc byte < 256.
Proof.
  unfold table_index. change 0xFF with (Z.ones 8).
  rewrite Z.land_ones by lia. apply Z.mod_pos_bound. lia.
Qed.

Lemma crc24q_update_range (crc : Z) (byte : ascii) :
  0 <= crc24q_update crc byte < 2 ^ 24.
Proof.
  rewrite crc24q_update_eq. apply lxor_range; [lia | |].
  - apply Z.mod_pos_bound. lia.
  - apply table_at_range, table_index_range.
Qed.

Lemma compute_crc24q_snoc (bytes : list ascii) (byte : ascii) :
  compute_crc24q (bytes ++ [byte])
  = crc24q_update (compute_crc24q bytes) byte.
Proof. unfold compute_crc24q. rewrite fold_left_app. reflexivity. Qed.

Lemma fold_crc24q_range (bytes : list ascii) (crc : Z) :
  0 <= crc < 2 ^ 24 -> 0 <= fold_left crc24q_update bytes crc < 2 ^ 24.
Proof.
  revert crc. induction bytes as [|b bytes IH]; intros crc H; [exact H|].
  cbn [fold_left]. apply IH, crc24q_update_range.
Qed.

Lemma compute_crc24q_range (bytes : list ascii) :
  0 <= compute_crc24q bytes < 2 ^ 24.
Proof. apply fold_crc24q_range. lia. Qed.

(** The update is linear in the register: a difference [d] between two
    registers evolves as a register fed with zero bytes. *)
Lemma crc24q_update_lxor (crc d : Z) (byte : ascii) :
  crc24q_update (Z.lxor crc d) byte
  = Z.lxor (crc24q_update crc byte) (crc24q_update d NUL).
Proof.
  rewrite !crc24q_update_eq, !table_index_eq.
  change (char_code NUL) with 0. rewrite Z.lxor_0_r.
  rewrite <- !Z.shiftl_mul_pow2, <- !Z.shiftr_div_pow2 by lia.
  rewrite Z.shiftl_lxor, Z.shiftr_lxor, !lxor_mod_pow2 by lia.
  set (hi := Z.shiftr crc 16 mod 2 ^ 8).
  set (hd := Z.shiftr d 16 mod 2 ^ 8).
  assert (Hhi : 0 <= hi < 256) by (apply Z.mod_pos_bound; lia).
  assert (Hhd : 0 <= hd < 256) by (apply Z.mod_pos_bound; lia).
  replace (Z.lxor (Z.lxor hi hd) (char_code byte))
    with (Z.lxor (Z.lxor hi (char_code byte)) hd)
    by (rewrite !Z.lxor_assoc; f_equal; apply Z.lxor_comm).
  rewrite table_at_lxor;
    [| apply (lxor_range _ _ 8); [lia | exact Hhi | apply char_code_range]
     | exact Hhd].
  rewrite !Z.lxor_assoc. f_equal.
  rewrite <- !Z.lxor_assoc. f_equal. apply Z.lxor_comm.
Qed.

(** A non-zero difference stays non-zero: the zero-byte update is injective
    on 24-bit registers. *)
Lemma crc24q_update_zero_byte (d : Z) :
  0 < d < 2 ^ 24 -> 0 < crc24q_update d NUL < 2 ^ 24.
Proof.
  intros Hd. pose proof (crc24q_update_range d NUL) as R.
  assert (crc24q_update d NUL <> 0); [|lia].
  intros Hz. rewrite crc24q_update_eq, table_index_eq in Hz.
  change (char_code NUL) with 0 in Hz. rewrite Z.lxor_0_r in Hz.
  apply Z.lxor_eq in Hz.
  assert (Hhi : (d / 2 ^ 16) mod 2 ^ 8 = d / 2 ^ 16).
  { apply Z.mod_small. split; [apply Z.div_pos; lia|].
    apply Z.div_lt_upper_bound; lia. }
  rewrite Hhi in Hz.
  assert (Hidx : d / 2 ^ 16 = 0).
  { apply table_at_low_byte.
    - split; [apply Z.div_pos; lia | apply Z.div_lt_upper_bound; lia].
    - rewrite <- Hz.
      change (2 ^ 24) with (2 ^ 16 * 2 ^ 8). change 256 with (2 ^ 8).
      rewrite Z.mul_mod_distr_r by lia. apply Z.mod_mul. lia. }
  rewrite Hidx in Hz. change (table_at 0) with 0 in Hz.
  assert (d < 2 ^ 16).
  { destruct (Z.lt_ge_cases d (2 ^ 16)) as [|Hge]; [assumption|].
    assert (1 <= d / 2 ^ 16) by (apply Z.div_le_lower_bound; lia). lia. }
  rewrite Z.mod_small in Hz by lia. lia.
Qed.

(** Two registers that differ keep differing over the same bytes. *)
Lemma fold_crc24q_lxor (bytes : list ascii) (crc d : Z) :
  0 < d < 2 ^ 24 ->
  exists d' : Z,
    0 < d' < 2 ^ 24
    /\ fold_left crc24q_update bytes (Z.lxor crc d)
       = Z.lxor (fold_left crc24q_update bytes crc) d'.
Proof.
  revert crc d. induction bytes as [|b bytes IH]; intros crc d Hd.
  - exists d. split; [exact Hd | reflexivity].
  - cbn [fold_left]. rewrite crc24q_update_lxor.
    apply IH, crc24q_update_zero_byte, Hd.
Qed.

End CRC24Q.

(** *** The table-driven engine computes the bit-by-bit CRC-24Q *)

Section CRC24Q_Bitwise.

Import Rtcm.

Lemma crc24q_shift_lxor (a b : Z) :
  crc24q_shift (Z.lxor a b) = Z.lxor (crc24q_shift a) (crc24q_shift b).
Proof.
  unfold crc24q_shift. rewrite Z.shiftl_lxor, Z.lxor_spec.
  destruct (Z.testbit (Z.shiftl a 1) 24), (Z.testbit (Z.shiftl b 1) 24);
    cbn [xorb].
  - rewrite Z.lxor_assoc, (Z.lxor_comm crc24q_poly),
      (Z.lxor_assoc (Z.shiftl b 1)), Z.lxor_nilpotent, Z.lxor_0_r.
    reflexivity.
  - rewrite !Z.lxor_assoc. f_equal. apply Z.lxor_comm.
  - rewrite !Z.lxor_assoc. reflexivity.
  - reflexivity.
Qed.

Lemma iter_crc24q_shift_lxor (n : nat) (a b : Z) :
  Nat.iter n crc24q_shift (Z.lxor a b)
  = Z.lxor (Nat.iter n crc24q_shift a) (Nat.iter n crc24q_shift b).
Proof.
  induction n as [|n IH]; [reflexivity|].
  rewrite !Nat.iter_succ, IH. apply crc24q_shift_lxor.
Qed.

(** A register that does not overflow is just shifted. *)
Lemma iter_crc24q_shift_small (n : nat) (x : Z) :
  0 <= x -> x * 2 ^ Z.of_nat n < 2 ^ 24 ->
  Nat.iter n crc24q_shift x = x * 2 ^ Z.of_nat n.
Proof.
  intros Hx. induction n as [|n IH]; intros Hlt.
  - change (Nat.iter 0 crc24q_shift x) with x.
    change (2 ^ Z.of_nat 0) with 1. lia.
  - rewrite Nat2Z.inj_succ, Z.pow_succ_r in * by lia.
    assert (0 < 2 ^ Z.of_nat n) by (apply Z.pow_pos_nonneg; lia).
    rewrite Nat.iter_succ, IH by nia.
    unfold crc24q_shift. rewrite Z.shiftl_mul_pow2 by lia.
    change (2 ^ 1) with 2.
    assert (Hbit : Z.testbit (x * 2 ^ Z.of_nat n * 2) 24 = false).
    { apply Z.testbit_false; [lia|]. rewrite Z.div_small by nia. reflexivity. }
    rewrite Hbit. lia.
Qed.

(** Feeding bits is linear in the register. *)
Lemma fold_feed_bit_lxor (s : bits) (crc : Z) :
  fold_left crc24q_feed_bit s crc
  = Z.lxor (Nat.iter (List.length s) crc24q_shift crc)
      (fold_left crc24q_feed_bit s 0).
Proof.
  revert crc. induction s as [|b s IH]; intros crc.
  - cbn [fold_left List.length].
    change (Nat.iter 0 crc24q_shift crc) with crc.
    rewrite Z.lxor_0_r. reflexivity.
  - cbn [fold_left List.length]. rewrite IH, (IH (crc24q_feed_bit 0 b)).
    unfold crc24q_feed_bit. rewrite Z.lxor_0_l, crc24q_shift_lxor.
    rewrite iter_crc24q_shift_lxor, Nat.iter_succ_r.
    apply Z.lxor_assoc.
Qed.

(** The eight bits of a byte fed to an empty register give the table entry
    of the byte. *)
Lemma fold_feed_byte_zero (c : ascii) :
  fold_left crc24q_feed_bit (byte_bits c) 0 = table_at (char_code c).
Proof.
  destruct c as [b0 b1 b2 b3 b4 b5 b6 b7].
  destruct b0, b1, b2, b3, b4, b5, b6, b7; vm_compute; reflexivity.
Qed.

Lemma split_at_16 (crc : Z) :
  0 <= crc ->
  crc = Z.lxor (crc mod 2 ^ 16) (Z.shiftl (crc / 2 ^ 16) 16).
Proof.
  intros Hc. apply Z.bits_inj'. intros i Hi.
  rewrite Z.lxor_spec. destruct (Z.lt_ge_cases i 16) as [Hlt|Hge].
  - rewrite Z.mod_pow2_bits_low, Z.shiftl_spec_low by lia.
    rewrite xorb_false_r. reflexivity.
  - rewrite Z.mod_pow2_bits_high, Z.shiftl_spec by lia.
    rewrite <- Z.shiftr_div_pow2, Z.shiftr_spec by lia.
    cbn [xorb]. f_equal. lia.
Qed.

(** Eight shifts of the register, through the table. *)
Lemma iter_8_crc24q_shift (crc : Z) :
  0 <= crc < 2 ^ 24 ->
  Nat.iter 8 crc24q_shift crc
  = Z.lxor ((crc * 2 ^ 8) mod 2 ^ 24) (table_at (crc / 2 ^ 16)).
Proof.
  intros Hc.
  assert (Hhi : 0 <= crc / 2 ^ 16 < 256)
    by (split; [apply Z.div_pos; lia | apply Z.div_lt_upper_bound; lia]).
  assert (Hlo : 0 <= crc mod 2 ^ 16 < 2 ^ 16) by (apply Z.mod_pos_bound; lia).
  rewrite (split_at_16 crc) at 1 by lia.
  rewrite iter_crc24q_shift_lxor.
  rewrite iter_crc24q_shift_small by (change (Z.of_nat 8) with 8; lia).
  rewrite table_at_entry by exact Hhi. unfold crc24q_table_entry.
  f_equal. change (Z.of_nat 8) with 8.
  rewrite (Z.div_mod crc (2 ^ 16)) at 2 by lia.
  replace ((2 ^ 16 * (crc / 2 ^ 16) + crc mod 2 ^ 16) * 2 ^ 8)
    with (crc mod 2 ^ 16 * 2 ^ 8 + crc / 2 ^ 16 * 2 ^ 24) by lia.
  rewrite Z.mod_add by lia. symmetry. apply Z.mod_small. lia.
Qed.

(** One byte through the table is its eight bits through the register. *)
Lemma crc24q_update_bitwise (crc : Z) (byte : ascii) :
  0 <= crc < 2 ^ 24 ->
  crc24q_update crc byte = fold_left crc24q_feed_bit (byte_bits byte) crc.
Proof.
  intros Hc.
  assert (Hhi : 0 <= crc / 2 ^ 16 < 256)
    by (split; [apply Z.div_pos; lia | apply Z.div_lt_upper_bound; lia]).
  rewrite fold_feed_bit_lxor, length_byte_bits, fold_feed_byte_zero.
  rewrite iter_8_crc24q_shift by exact Hc.
  rewrite crc24q_update_eq, table_index_eq.
  rewrite (Z.mod_small (crc / 2 ^ 16)) by (change (2 ^ 8) with 256; lia).
  rewrite table_at_lxor by (exact Hhi || apply char_code_range).
  symmetry. apply Z.lxor_assoc.
Qed.

Lemma fold_crc24q_bitwise (bytes : list ascii) (crc : Z) :
  0 <= crc < 2 ^ 24 ->
  fold_left crc24q_update bytes crc
  = fold_left crc24q_feed_bit (binary_data_to_bin bytes) crc.
Proof.
  revert crc. induction bytes as [|b bytes IH]; intros crc Hc; [reflexivity|].
  cbn [fold_left binary_data_to_bin flat_map].
  fold (binary_data_to_bin bytes).
  rewrite fold_left_app, <- crc24q_update_bitwise by exact Hc.
  apply IH, crc24q_update_range.
Qed.

(** The check value of CRC-24Q. *)
Example compute_crc24q_check_value :
  compute_crc24q (chars "123456789") = 0xCDE703.
Proof. vm_compute. reflexivity. Qed.

(** The table-driven engine refines the bit-by-bit definition. *)
Lemma compute_crc24q_bitwise (bytes : list ascii) :
  compute_crc24q bytes = crc24q_bitwise (binary_data_to_bin bytes).
Proof. apply fold_crc24q_bitwise. lia. Qed.

End CRC24Q_Bitwise.

(** *** Single-bit errors *)

Section Single_Bit_Flips.

Import Rtcm.

(** The weight of bit [k] of a byte, counted from the most significant. *)
Lemma char_code_flip_in_byte (k : nat) (c : ascii) :
  (k < 8)%nat ->
  char_code (flip_in_byte k c)
  = Z.lxor (char_code c) (2 ^ (7 - Z.of_nat k)).
Proof.
  intros Hk. destruct c as [b0 b1 b2 b3 b4 b5 b6 b7].
  do 8 (destruct k as [|k];
        [destruct b0, b1, b2, b3, b4, b5, b6, b7; vm_compute; reflexivity|]).
  lia.
Qed.

Lemma flip_in_byte_neq (k : nat) (c : ascii) :
  (k < 8)%nat -> flip_in_byte k c <> c.
Proof.
  intros Hk Heq. apply (f_equal char_code) in Heq.
  rewrite char_code_flip_in_byte in Heq by exact Hk.
  apply lxor_cancel_l in Heq.
  assert (0 < 2 ^ (7 - Z.of_nat k)) by (apply Z.pow_pos_nonneg; lia). lia.
Qed.

(** Position [j] of a list, with what is before and after it. *)
Lemma alter_split {A : Type} (f : A -> A) (l : list A) (j : nat) :
  (j < List.length l)%nat ->
  exists (pre : list A) (x : A) (post : list A),
    l = pre ++ x :: post /\ alter f j l = pre ++ f x :: post.
Proof.
  revert j. induction l as [|y l IH]; intros j Hj; [cbn in Hj; lia|].
  destruct j as [|j].
  - exists [], y, l. split; reflexivity.
  - cbn [List.length] in Hj.
    destruct (IH j ltac:(lia)) as (pre & x & post & Hl & Ha).
    exists (y :: pre), x, post. split.
    + rewrite Hl at 1. reflexivity.
    + change (alter f (S j) (y :: l)) with (y :: alter f j l).
      rewrite Ha. reflexivity.
Qed.

(** One inverted bit in a byte moves the register by a non-zero amount. *)
Lemma crc24q_update_flip (crc : Z) (k : nat) (c : ascii) :
  (k < 8)%nat ->
  exists d : Z,
    0 < d < 2 ^ 24
    /\ crc24q_update crc (flip_in_byte k c) = Z.lxor (crc24q_update crc c) d.
Proof.
  intros Hk.
  assert (He : 0 < 2 ^ (7 - Z.of_nat k) < 256).
  { split; [apply Z.pow_pos_nonneg; lia|].
    change 256 with (2 ^ 8). apply Z.pow_lt_mono_r; lia. }
  exists (table_at (2 ^ (7 - Z.of_nat k))). split.
  - pose proof (table_at_range (2 ^ (7 - Z.of_nat k)) ltac:(lia)).
    pose proof (table_at_nonzero (2 ^ (7 - Z.of_nat k)) He). lia.
  - rewrite !crc24q_update_eq, !table_index_eq.
    rewrite char_code_flip_in_byte by exact Hk.
    rewrite <- Z.lxor_assoc, table_at_lxor; [apply eq_sym, Z.lxor_assoc | | lia].
    apply (lxor_range _ _ 8); [lia | | apply char_code_range].
    apply Z.mod_pos_bound. lia.
Qed.

(** The CRC of a byte string changes when one bit of it is inverted. *)
Lemma compute_crc24q_flip (bytes : list ascii) (j k : nat) :
  (j < List.length bytes)%nat -> (k < 8)%nat ->
  compute_crc24q (alter (flip_in_byte k) j bytes) <> compute_crc24q bytes.
Proof.
  intros Hj Hk.
  destruct (alter_split (flip_in_byte k) bytes j Hj)
    as (pre & c & post & -> & ->).
  unfold compute_crc24q. rewrite !fold_left_app. cbn [fold_left].
  destruct (crc24q_update_flip (fold_left crc24q_update pre 0) k c Hk)
    as (d & Hd & ->).
  destruct (fold_crc24q_lxor post
              (crc24q_update (fold_left crc24q_update pre 0) c) d Hd)
    as (d' & Hd' & ->).
  intros Heq. apply lxor_cancel_l in Heq. lia.
Qed.

(** The three bytes of the CRC field, as a number, change when one bit of
    them is inverted. *)
Lemma crc_field_flip (field : list ascii) (j k : nat) :
  (j < List.length field)%nat -> (k < 8)%nat ->
  bin_to_uint (binary_data_to_bin (alter (flip_in_byte k) j field))
  <> bin_to_uint (binary_data_to_bin field).
Proof.
  intros Hj Hk Heq.
  apply bin_to_uint_inj in Heq;
    [|rewrite !length_binary_data_to_bin, length_alter; reflexivity].
  apply (f_equal bin_to_binary_data) in Heq.
  rewrite !bin_to_binary_data_unpack in Heq.
  destruct (alter_split (flip_in_byte k) field j Hj)
    as (pre & c & post & Hl & Ha).
  rewrite Ha, Hl in Heq. apply app_inv_head in Heq.
  injection Heq as Heq. exact (flip_in_byte_neq k c Hk Heq).
Qed.

(** A message that passes the check fails it once one bit is inverted. *)
Lemma check_CRC_flip (message : list ascii) (i : nat) :
  check_CRC message = true ->
  (i < 8 * List.length message)%nat ->
  check_CRC (flip_bit i message) = false.
Proof.
  unfold check_CRC, flip_bit. rewrite length_alter.
  set (n := List.length message).
  destruct (n <? 3)%nat eqn:E3; [discriminate|].
  apply Nat.ltb_ge in E3. intros Hok Hi.
  apply Z.eqb_eq in Hok. apply Z.eqb_neq.
  assert (Hj : (i / 8 < n)%nat) by (apply Nat.Div0.div_lt_upper_bound; lia).
  assert (Hk : (i mod 8 < 8)%nat) by (apply Nat.mod_upper_bound; lia).
  destruct (Nat.lt_ge_cases (i / 8) (n - 3)) as [Hlt|Hge].
  - rewrite take_alter_lt, drop_alter_lt by exact Hlt.
    rewrite <- Hok. apply compute_crc24q_flip; [|exact Hk].
    rewrite length_take. fold n. lia.
  - rewrite take_alter_ge, drop_alter_ge by exact Hge.
    rewrite Hok. apply not_eq_sym, crc_field_flip; [|exact Hk].
    rewrite length_drop. fold n. lia.
Qed.

(** A three-byte field holds a 24-bit number exactly when it is that number
    packed. *)
Lemma crc_field_value (field : list ascii) (v : Z) :
  List.length field = 3%nat -> 0 <= v < 2 ^ 24 ->
  v = bin_to_uint (binary_data_to_bin field)
  <-> field = bin_to_binary_data (to_bits v 24).
Proof.
  intros Hlen Hv. split.
  - intros Heq.
    rewrite <- (bin_to_uint_to_bits v 24) in Heq by exact Hv.
    apply bin_to_uint_inj in Heq;
      [|rewrite length_to_bits, length_binary_data_to_bin, Hlen; reflexivity].
    rewrite Heq. symmetry. apply bin_to_binary_data_unpack.
  - intros ->.
    rewrite (binary_data_to_bin_pack 3) by apply length_to_bits.
    symmetry. apply bin_to_uint_to_bits. exact Hv.
Qed.

(** C2: for every byte string m of at least 3 bytes, [check_CRC] returns true
    exactly when the last 3 bytes of m are the CRC-24Q (polynomial 0x1864CFB,
    register initially 0, no final XOR, most significant bit first) of the
    bytes before them; and when m passes the check, m with any single bit
    inverted fails it. *)
Theorem check_CRC_crc24q_and_single_bit_flips (m : list ascii) :
  (3 <= List.length m)%nat ->
  let n := List.length m in
  (check_CRC m = true
   <-> drop (n - 3) m
       = bin_to_binary_data
           (to_bits (crc24q_bitwise (binary_data_to_bin (take (n - 3) m))) 24))
  /\ (check_CRC m = true ->
      forall i : nat, (i < 8 * n)%nat -> check_CRC (flip_bit i m) = false).
Proof.
  intros Hlen n. split.
  - rewrite <- compute_crc24q_bitwise.
    rewrite <- crc_field_value;
      [| rewrite length_drop; fold n; lia | apply compute_crc24q_range].
    unfold check_CRC. fold n.
    destruct (n <? 3)%nat eqn:E3; [apply Nat.ltb_lt in E3; lia|].
    apply Z.eqb_eq.
  - intros Hok i Hi. apply check_CRC_flip; assumption.
Qed.

Lemma check_CRC_crc24q_and_single_bit_flips_witness :
  (3 <= List.length (build_message [true; false; true]))%nat
  /\ check_CRC (build_message [true; false; true]) = true
  /\ check_CRC (flip_bit 29 (build_message [true; false; true])) = false.
Proof.
  assert (Hlen : (3 <= List.length (build_message [true; false; true]))%nat)
    by (vm_compute; lia).
  split; [exact Hlen|]. split; [vm_compute; reflexivity|].
  apply (proj2 (check_CRC_crc24q_and_single_bit_flips
                  (build_message [true; false; true]) Hlen));
    [vm_compute; reflexivity | vm_compute; lia].
Defined.

End Single_Bit_Flips.

(** ** Framing *)

Section Framing.

Import Rtcm.

Lemma field_at (pre x post : bits) (index len : nat) :
  List.length pre = index -> List.length x = len ->
  field (pre ++ x ++ post) index len = x.
Proof.
  intros Hpre Hx. unfold field.
  rewrite drop_app_length' by (symmetry; exact Hpre).
  apply take_app_length'. symmetry. exact Hx.
Qed.

(** The body's bits, padded to whole bytes. *)
Lemma length_padded (data : bits) :
  let msg_length_bytes := ((List.length data + 7) / 8)%nat in
  List.length
    (data ++ repeat false (8 * msg_length_bytes - List.length data))
  = (8 * msg_length_bytes)%nat.
Proof.
  cbv zeta. rewrite length_app, repeat_length.
  pose proof (Nat.div_mod_eq (List.length data + 7) 8).
  pose proof (Nat.mod_upper_bound (List.length data + 7) 8). lia.
Qed.

(** The framed message, seen as binary digits and as bytes. *)
Lemma build_message_parts (data : bits) :
  let msg_length_bytes := ((List.length data + 7) / 8)%nat in
  let padded :=
    data ++ repeat false (8 * msg_length_bytes - List.length data) in
  let msg_without_crc :=
    preamble ++ reserved_field ++ to_bits (Z.of_nat msg_length_bytes) 10
    ++ padded in
  let crc := to_bits (compute_crc24q (bin_to_binary_data msg_without_crc)) 24 in
  List.length msg_without_crc = (8 * (3 + msg_length_bytes))%nat
  /\ build_message data
     = bin_to_binary_data msg_without_crc ++ bin_to_binary_data crc
  /\ binary_data_to_bin (build_message data) = msg_without_crc ++ crc.
Proof.
  intros L padded msg_without_crc crc.
  assert (Hlen : List.length msg_without_crc = (8 * (3 + L))%nat).
  { pose proof (length_padded data) as Hpad. cbv zeta in Hpad.
    fold L in Hpad. fold padded in Hpad.
    unfold msg_without_crc. rewrite !length_app, !length_to_bits, Hpad.
    change (List.length preamble) with 8%nat.
    change (List.length reserved_field) with 6%nat. lia. }
  assert (Hsplit : build_message data
                   = bin_to_binary_data msg_without_crc
                     ++ bin_to_binary_data crc).
  { unfold build_message, add_CRC. fold L. fold padded.
    fold msg_without_crc. fold crc.
    apply (bin_to_binary_data_split (3 + L)). exact Hlen. }
  split; [exact Hlen|]. split; [exact Hsplit|].
  rewrite Hsplit, binary_data_to_bin_app.
  rewrite (binary_data_to_bin_pack (3 + L)) by exact Hlen.
  rewrite (binary_data_to_bin_pack 3) by apply length_to_bits.
  reflexivity.
Qed.

(** A framed message passes the CRC check. *)
Lemma check_CRC_build_message (data : bits) :
  check_CRC (build_message data) = true.
Proof.
  destruct (build_message_parts data) as (Hlen & Hsplit & _).
  cbv zeta in Hlen, Hsplit.
  set (L := ((List.length data + 7) / 8)%nat) in *.
  set (F := preamble ++ reserved_field ++ to_bits (Z.of_nat L) 10 ++ _) in *.
  assert (HF : List.length (bin_to_binary_data F) = (3 + L)%nat)
    by (apply length_bin_to_binary_data; exact Hlen).
  assert (HC : List.length
                 (bin_to_binary_data
                    (to_bits (compute_crc24q (bin_to_binary_data F)) 24))
               = 3%nat)
    by (apply length_bin_to_binary_data, length_to_bits).
  unfold check_CRC. rewrite Hsplit, length_app, HF, HC.
  replace (3 + L + 3 - 3)%nat with (3 + L)%nat by lia.
  destruct (3 + L + 3 <? 3)%nat eqn:E; [apply Nat.ltb_lt in E; lia|].
  rewrite take_app_length', drop_app_length' by (symmetry; exact HF).
  rewrite (binary_data_to_bin_pack 3) by apply length_to_bits.
  rewrite bin_to_uint_to_bits by apply compute_crc24q_range.
  apply Z.eqb_refl.
Qed.

(** C3, as stated: the frame of an empty body (L = 0) has 6 bytes, not
    6 + 0 + 3. *)
Lemma build_message_empty_body_length :
  List.length (build_message (binary_data_to_bin [])) <> (6 + 0 + 3)%nat.
Proof. vm_compute. discriminate. Qed.

(** C3, amended: for every message body whose byte length L (its bits padded
    to whole bytes) is at most 1023, the framed message has 3 + L + 3 bytes
    (3 for the preamble, the reserved bits and the length, 3 for the CRC),
    begins with the 8-bit preamble 0xD3 followed by 6 zero reserved bits, its
    10-bit length field decodes back to L, the body follows, padded with zero
    bits, and the frame passes the CRC check. *)
Theorem build_message_frame (data : bits) :
  let L := ((List.length data + 7) / 8)%nat in
  (L <= 1023)%nat ->
  let message := build_message data in
  List.length message = (3 + L + 3)%nat
  /\ bin_to_uint (field (binary_data_to_bin message) 0 8) = 0xD3
  /\ field (binary_data_to_bin message) 8 6 = repeat false 6
  /\ frame_length message = Z.of_nat L
  /\ field (binary_data_to_bin message) 24 (8 * L)
     = data ++ repeat false (8 * L - List.length data)
  /\ check_CRC message = true.
Proof.
  intros L HL message. subst message.
  destruct (build_message_parts data) as (Hlen & Hsplit & Hbits).
  cbv zeta in Hlen, Hsplit, Hbits. fold L in Hlen, Hsplit, Hbits.
  pose proof (length_padded data) as Hpad. cbv zeta in Hpad. fold L in Hpad.
  set (padded := data ++ repeat false (8 * L - List.length data)) in *.
  set (crc := to_bits _ 24) in *.
  split.
  { rewrite Hsplit, length_app.
    rewrite (length_bin_to_binary_data (3 + L)) by exact Hlen.
    rewrite (length_bin_to_binary_data 3) by apply length_to_bits.
    reflexivity. }
  unfold frame_length. rewrite Hbits. clear Hsplit Hbits Hlen.
  split.
  { rewrite <- (app_nil_l ((preamble ++ _) ++ crc)), <- app_assoc.
    rewrite field_at by reflexivity. reflexivity. }
  split.
  { rewrite <- !app_assoc. rewrite field_at by reflexivity. reflexivity. }
  split.
  { replace ((preamble ++ reserved_field ++ to_bits (Z.of_nat L) 10 ++ padded)
             ++ crc)
      with ((preamble ++ reserved_field)
            ++ to_bits (Z.of_nat L) 10 ++ (padded ++ crc))
      by (rewrite <- !app_assoc; reflexivity).
    rewrite field_at by (reflexivity || apply length_to_bits).
    apply bin_to_uint_to_bits. change (2 ^ Z.of_nat 10) with 1024. lia. }
  split; [|apply check_CRC_build_message].
  replace ((preamble ++ reserved_field ++ to_bits (Z.of_nat L) 10 ++ padded)
           ++ crc)
    with ((preamble ++ reserved_field ++ to_bits (Z.of_nat L) 10)
          ++ padded ++ crc)
    by (rewrite <- !app_assoc; reflexivity).
  apply field_at; [|exact Hpad].
  rewrite !length_app, length_to_bits. reflexivity.
Qed.

Lemma build_message_frame_witness :
  ((List.length [true; false; true] + 7) / 8 <= 1023)%nat
  /\ List.length (build_message [true; false; true]) = 7%nat
  /\ frame_length (build_message [true; false; true]) = 1.
Proof.
  assert (H : ((List.length [true; false; true] + 7) / 8 <= 1023)%nat)
    by (vm_compute; lia).
  split; [exact H|].
  destruct (build_message_frame [true; false; true] H)
    as (Hlength & _ & _ & Hfield & _).
  split; [exact Hlength | exact Hfield].
Defined.

End Framing.

(** ** Message type 1005 *)

Section MT1005_Claims.

Import Rtcm.

(** A frame of message type 1005 in common use as a test vector (station
    2003 at 1114104.5999, -4850729.7108, 3975521.4643, GPS only):
    D300133ED7D30202980EDEEF34B4BD62AC0941986F33360B98. *)
Example print_MT1005_test_vector :
  map char_code
    (print_MT1005 2003 (11141045999 # 10000) (-48507297108 # 10000)
       (39755214643 # 10000) true false false false false 0)
  = [0xD3; 0x00; 0x13; 0x3E; 0xD7; 0xD3; 0x02; 0x02; 0x98; 0x0E; 0xDE; 0xEF;
     0x34; 0xB4; 0xBD; 0x62; 0xAC; 0x09; 0x41; 0x98; 0x6F; 0x33; 0x36; 0x0B;
     0x98].
Proof. vm_compute. reflexivity. Qed.

(** C1: for ref_id = 4, ECEF coordinates 4075580.0, 931853.0, 4801568.0,
    gps = true, glonass = false, galileo = false and any fixed value of the
    remaining flags, [read_MT1005] applied to the string that [print_MT1005]
    returns gives status 0 and stores ref_id 4, the three flags, and ECEF X,
    Y and Z within 0.0001 m of the encoded values. *)
Theorem MT1005_round_trip (non_physical single_oscillator : bool)
    (quarter_cycle_indicator : Z) (out : MT1005) :
  let message :=
    print_MT1005 4 (4075580 # 1) (931853 # 1) (4801568 # 1) true false false
      non_physical single_oscillator quarter_cycle_indicator in
  let r := read_MT1005 message out in
  fst r = 0
  /\ ref_id (snd r) = 4
  /\ (Qabs (ecef_x (snd r) - (4075580 # 1)) <= 1 # 10000)%Q
  /\ (Qabs (ecef_y (snd r) - (931853 # 1)) <= 1 # 10000)%Q
  /\ (Qabs (ecef_z (snd r) - (4801568 # 1)) <= 1 # 10000)%Q
  /\ gps (snd r) = true
  /\ glonass (snd r) = false
  /\ galileo (snd r) = false.
Proof.
  cbv zeta. unfold print_MT1005, MT1005_content.
  assert (Hq : exists b1 b0 : bool,
             to_bits quarter_cycle_indicator 2 = [b1; b0])
    by (eexists _, _; reflexivity).
  destruct Hq as (b1 & b0 & ->).
  destruct non_physical, single_oscillator, b1, b0;
    vm_compute; repeat split; discriminate.
Qed.

End MT1005_Claims.

(** * Further properties of the transport classes *)

(** ** [Rtcm_Message] *)

Section Message_Properties.

Import Rtcm_Message.

Lemma stoi_range (s : list ascii) (v : Z) :
  stoi s = Some v -> INT_MIN <= v <= INT_MAX.
Proof.
  unfold stoi. destruct (read_sign (skip_spaces s)) as [negative s'].
  destruct s' as [|c s']; [discriminate|].
  destruct (isdigit c); [|discriminate].
  destruct (_ && _) eqn:E; [|discriminate].
  intros H. injection H as <-.
  apply andb_true_iff in E. destruct E as [E1 E2].
  apply Z.leb_le in E1. apply Z.leb_le in E2. split; assumption.
Qed.

Lemma decode_header_data (m : t) : data_ (snd (decode_header m)) = data_ m.
Proof.
  unfold decode_header.
  destruct (take header_length (data_ m)) as [|h0 [|h1 h2]]; try reflexivity.
  destruct (_ || _); [reflexivity|].
  destruct (stoi h2) as [v|]; [|reflexivity]. cbn [body_length_].
  destruct (_ =? 0); [reflexivity|]. destruct (_ >? _); reflexivity.
Qed.

(** [decode_header] called twice. *)
Lemma decode_header_twice (m : t) :
  decode_header (snd (decode_header m)) = decode_header m.
Proof.
  unfold decode_header.
  destruct (take header_length (data_ m)) as [|h0 [|h1 h2]] eqn:E;
    cbn [snd]; rewrite ?E; try reflexivity.
  destruct (negb (Ascii.eqb h0 "G") || negb (Ascii.eqb h1 "S")) eqn:Etag;
    cbn [snd]; rewrite ?E, ?Etag; try reflexivity.
  destruct (stoi h2) as [v|] eqn:Es; cbn [snd data_ body_length_];
    rewrite ?E, ?Etag, ?Es; try reflexivity.
  cbn [body_length_].
  destruct (to_size_t v =? 0) eqn:Ez; cbn [snd data_];
    rewrite ?E, ?Etag, ?Es; cbn [body_length_]; rewrite ?Ez; try reflexivity.
  destruct (to_size_t v >? max_body_length) eqn:Eg; cbn [snd data_];
    rewrite ?E, ?Etag, ?Es; cbn [body_length_]; rewrite ?Ez, ?Eg; reflexivity.
Qed.

(** The session's header handler calls [decode_header] a second time when the
    first call rejects: the second call answers the same and leaves the
    message as the first call left it. *)
Theorem decode_header_idempotent (m : t) :
  decode_header (snd (decode_header m)) = decode_header m
  /\ fst (decode_header (snd (decode_header m))) = fst (decode_header m).
Proof.
  split; [apply decode_header_twice | rewrite decode_header_twice; reflexivity].
Qed.

(** [decode_header] accepts exactly the headers that start with "GS" and
    from whose length field [std::stoi] reads a number between 1 and 1029,
    which becomes the body length.  A negative number, which the conversion
    to [std::size_t] makes huge, is among the rejected ones. *)
Theorem decode_header_accepts_iff (m : t) :
  let r := decode_header m in
  (fst r = true <->
   exists (h2 : list ascii) (v : Z),
     header m = "G"%char :: "S"%char :: h2
     /\ stoi h2 = Some v /\ 1 <= v <= 1029)
  /\ (forall (h2 : list ascii) (v : Z),
         header m = "G"%char :: "S"%char :: h2 -> stoi h2 = Some v ->
         fst r = true -> body_length_ (snd r) = v)
  /\ (forall (h2 : list ascii) (v : Z),
         header m = "G"%char :: "S"%char :: h2 -> stoi h2 = Some v ->
         v < 0 -> fst r = false /\ body_length_ (snd r) = 0).
Proof.
  cbv zeta. unfold decode_header, header.
  destruct (take header_length (data_ m)) as [|h0 [|h1 h2]] eqn:E.
  { cbn [fst snd]. repeat split; try discriminate.
    intros (h & v & H & _). discriminate. }
  { cbn [fst snd]. repeat split; try discriminate.
    intros (h & v & H & _). discriminate. }
  destruct (Ascii.eqb h0 "G") eqn:E0; cbn [negb orb].
  2:{ apply Ascii.eqb_neq in E0. cbn [fst snd].
      repeat split; try discriminate; try congruence.
      intros (h & v & H & _). congruence. }
  destruct (Ascii.eqb h1 "S") eqn:E1; cbn [negb orb].
  2:{ apply Ascii.eqb_neq in E1. cbn [fst snd].
      repeat split; try discriminate; try congruence.
      intros (h & v & H & _). congruence. }
  apply Ascii.eqb_eq in E0, E1. subst h0 h1.
  destruct (stoi h2) as [v|] eqn:Es.
  2:{ cbn [fst snd]. repeat split; try discriminate; try congruence.
      intros (h & v & H & Hs & _). congruence. }
  pose proof (stoi_range h2 v Es) as Hr. unfold INT_MIN, INT_MAX in Hr.
  cbn [body_length_]. unfold to_size_t, max_body_length.
  assert (Hwrap : v < 0 -> v mod 2 ^ 64 = v + 2 ^ 64).
  { intros Hneg. symmetry. apply (Z.mod_unique _ _ (-1)); lia. }
  assert (Hsmall : 0 <= v -> v mod 2 ^ 64 = v)
    by (intros; apply Z.mod_small; lia).
  destruct (v mod 2 ^ 64 =? 0) eqn:Ez; cbn [fst snd body_length_].
  { apply Z.eqb_eq in Ez.
    assert (Hv0 : v = 0)
      by (destruct (Z.lt_ge_cases v 0); [rewrite Hwrap in Ez|
            rewrite Hsmall in Ez]; lia).
    repeat split; try discriminate; try lia.
    intros (h & v' & Hh & Hs & Hv). assert (v' = v) by congruence. lia. }
  apply Z.eqb_neq in Ez.
  destruct (v mod 2 ^ 64 >? 1029) eqn:Eg; cbn [fst snd body_length_].
  { apply Z.gtb_lt in Eg. repeat split; try discriminate.
    intros (h & v' & Hh & Hs & Hv).
    assert (v' = v) by congruence. subst v'. rewrite Hsmall in Eg; lia. }
  rewrite Z.gtb_ltb in Eg. apply Z.ltb_ge in Eg.
  assert (Hpos : 0 <= v)
    by (destruct (Z.lt_ge_cases v 0) as [Hn|]; [|assumption];
        rewrite (Hwrap Hn) in Eg; lia).
  rewrite Hsmall in * by assumption.
  split; [|split].
  - split; [|reflexivity]. intros _. exists h2, v. repeat split; auto; lia.
  - intros h v' Hh Hs _. congruence.
  - intros h v' Hh Hs Hneg. assert (v' = v) by congruence. lia.
Qed.

Lemma decode_header_accepts_iff_witness :
  (header (receive_header (chars "GS-001") new)
   = "G"%char :: "S"%char :: chars "-001"
   /\ stoi (chars "-001") = Some (-1) /\ -1 < 0)
  /\ fst (decode_header (receive_header (chars "GS-001") new)) = false.
Proof.
  split; [repeat split; vm_compute; reflexivity|].
  apply (proj2 (proj2 (decode_header_accepts_iff
                         (receive_header (chars "GS-001") new)))
           (chars "-001") (-1)); vm_compute; reflexivity.
Defined.

(** An accepted header gives a body length between 1 and 1029. *)
Lemma decode_header_accepted_range (m : t) :
  fst (decode_header m) = true ->
  1 <= body_length_ (snd (decode_header m)) <= 1029.
Proof.
  unfold decode_header, max_body_length.
  destruct (take _ _) as [|h0 [|h1 h2]]; cbn [fst snd]; try discriminate.
  destruct (_ || _); cbn [fst snd]; [discriminate|].
  destruct (stoi h2) as [v|]; cbn [fst snd body_length_]; [|discriminate].
  pose proof (Z.mod_pos_bound v (2 ^ 64) ltac:(lia)) as Hv.
  fold (to_size_t v) in Hv.
  destruct (to_size_t v =? 0) eqn:Ez; cbn [fst snd body_length_];
    [discriminate|].
  apply Z.eqb_neq in Ez.
  destruct (to_size_t v >? 1029) eqn:Eg; cbn [fst snd body_length_];
    [discriminate|].
  rewrite Z.gtb_ltb in Eg. apply Z.ltb_ge in Eg. lia.
Qed.

Lemma message_ok_decode_header (m : t) :
  message_ok m -> message_ok (snd (decode_header m)).
Proof.
  unfold message_ok, max_body_length, header_length.
  intros [Hd Hb]. rewrite decode_header_data. split; [exact Hd|].
  unfold decode_header, max_body_length.
  destruct (take _ _) as [|h0 [|h1 h2]]; cbn [snd]; try lia.
  destruct (_ || _); cbn [snd]; [lia|].
  destruct (stoi h2) as [v|]; cbn [snd body_length_]; [|lia].
  pose proof (Z.mod_pos_bound v (2 ^ 64) ltac:(lia)) as Hv.
  fold (to_size_t v) in Hv.
  destruct (to_size_t v =? 0) eqn:Ez; cbn [snd body_length_]; [lia|].
  destruct (to_size_t v >? 1029) eqn:Eg; cbn [snd body_length_]; [lia|].
  rewrite Z.gtb_ltb in Eg. apply Z.ltb_ge in Eg. lia.
Qed.

(** The class invariant: every operation leaves the array at its size and
    the body length within 0-1029, so that header and body never claim more
    than the array holds. *)
Theorem message_ok_preserved :
  message_ok new
  /\ (forall (n : Z) (m : t), 0 <= n -> message_ok m ->
         message_ok (body_length n m))
  /\ (forall m : t, message_ok m -> message_ok (snd (decode_header m)))
  /\ (forall m : t, message_ok m -> message_ok (encode_header m))
  /\ (forall m : t, message_ok m ->
         Z.to_nat (length m) <= List.length (data_ m))%nat.
Proof.
  unfold message_ok, max_body_length, header_length.
  split; [split; [reflexivity | cbn; lia]|].
  split.
  { intros n m Hn [Hd Hb]. rewrite body_length_data, body_length_value.
    unfold max_body_length. split; [exact Hd | lia]. }
  split.
  { intros m Hm. apply message_ok_decode_header. exact Hm. }
  split.
  { intros m [Hd Hb]. split; [|exact Hb].
    unfold encode_header. cbn [data_].
    rewrite length_app, length_drop, !length_resize.
    unfold header_length. lia. }
  intros m [Hd Hb]. unfold length, header_length. lia.
Qed.

Lemma message_ok_preserved_witness :
  (0 <= 5000 /\ message_ok new)
  /\ message_ok (body_length 5000 new)
  /\ message_ok (encode_header (body_length 5000 new)).
Proof.
  pose proof message_ok_preserved as (Hnew & Hlen & _ & Henc & _).
  split; [split; [lia | exact Hnew]|].
  split; [apply Hlen; [lia | exact Hnew]|].
  apply Henc, Hlen; [lia | exact Hnew].
Defined.

(** A message whose header is "GS" and a space-padded length. *)
Lemma decode_header_space_padded (n : Z) (m : t) :
  0 <= n <= 1029 ->
  header m = chars "GS" ++ space_padded_decimal_4 n ->
  decode_header m
  = (negb (n =? 0), {| data_ := data_ m; body_length_ := n |}).
Proof.
  intros Hn Hh.
  assert (Hall : forallb
            (fun k : nat =>
               bool_decide
                 (stoi (space_padded_decimal_4 (Z.of_nat k)) = Some (Z.of_nat k)))
            (seq 0 1030) = true) by (vm_compute; reflexivity).
  rewrite forallb_forall in Hall. specialize (Hall (Z.to_nat n)).
  rewrite Z2Nat.id in Hall by lia.
  apply bool_decide_eq_true in Hall; [|apply in_seq; lia].
  unfold decode_header.
  change (take header_length (data_ m)) with (header m).
  rewrite Hh. cbn [chars list_ascii_of_string app space_padded_decimal_4].
  cbn [Ascii.eqb Bool.eqb negb orb].
  change [_; _; _; _] with (space_padded_decimal_4 n). rewrite Hall.
  cbn [body_length_]. unfold to_size_t, max_body_length.
  rewrite Z.mod_small by lia.
  destruct (n =? 0) eqn:Ez; [reflexivity|].
  destruct (n >? 1029) eqn:Eg; [apply Z.gtb_lt in Eg; lia | reflexivity].
Qed.

(** The envelope header round trip: for every length n that a [std::size_t]
    can hold, the header that [encode_header] writes after [body_length(n)]
    is accepted by [decode_header] exactly when n is not 0, and the decoded
    body length is min(n, 1029); the header of an empty body is rejected. *)
Theorem encode_decode_header (n : Z) (m : t) :
  0 <= n ->
  decode_header (encode_header (body_length n m))
  = (negb (n =? 0),
     {| data_ := data_ (encode_header (body_length n m));
        body_length_ := Z.min n max_body_length |}).
Proof.
  intros Hn.
  assert (Hb : body_length_ (body_length n m) = Z.min n max_body_length)
    by apply body_length_value.
  assert (Hr : 0 <= Z.min n max_body_length <= 1029)
    by (unfold max_body_length; lia).
  rewrite (decode_header_space_padded (Z.min n max_body_length)).
  - f_equal. unfold max_body_length.
    destruct (n =? 0) eqn:E1, (Z.min n 1029 =? 0) eqn:E2; try reflexivity;
      [apply Z.eqb_eq in E1; apply Z.eqb_neq in E2
      |apply Z.eqb_neq in E1; apply Z.eqb_eq in E2]; lia.
  - exact Hr.
  - rewrite encode_header_in_range; rewrite Hb; [reflexivity|].
    unfold max_body_length in *. lia.
Qed.

Lemma encode_decode_header_witness :
  0 <= 5000
  /\ fst (decode_header (encode_header (body_length 5000 new))) = true
  /\ body_length_ (snd (decode_header (encode_header (body_length 5000 new))))
     = 1029.
Proof.
  split; [lia|].
  rewrite (encode_decode_header 5000 new) by lia.
  split; reflexivity.
Defined.

End Message_Properties.

(** ** [Rtcm_Listener_Room] *)

Section Room_Properties.

Import Rtcm_Listener_Room.

Lemma run_step (o : operation) (ops : list operation) (r : t) :
  run (o :: ops) r
  = (fst (run ops (fst (step o r))),
     snd (step o r) ++ snd (run ops (fst (step o r)))).
Proof.
  cbn [run]. destruct (step o r) as [r1 d1]. cbn [fst snd].
  destruct (run ops r1) as [r2 d2]. reflexivity.
Qed.

(** [deliver] hands the message to every participant of the room, once each,
    and to nobody else; the participants stay as they are. *)
Theorem deliver_reaches_each_participant_once (msg : Rtcm_Message.t) (r : t) :
  let ds := snd (deliver msg r) in
  NoDup ds
  /\ (forall (p : participant) (m : Rtcm_Message.t),
         (p, m) ∈ ds <-> p ∈ participants_ r /\ m = msg)
  /\ List.length ds = size (participants_ r)
  /\ participants_ (fst (deliver msg r)) = participants_ r.
Proof.
  cbv zeta. unfold deliver. cbn [fst snd participants_].
  change (map (fun p => (p, msg)) (elements (participants_ r)))
    with ((fun p => (p, msg)) <$> elements (participants_ r)).
  split.
  { apply NoDup_fmap_2; [|apply NoDup_elements].
    intros p q H. injection H as ->. reflexivity. }
  split.
  { intros p m. rewrite list_elem_of_fmap. split.
    - intros (q & H & Hq). inversion H; subst.
      split; [apply elem_of_elements; exact Hq | reflexivity].
    - intros [Hp ->]. exists p. split; [reflexivity|].
      apply elem_of_elements. exact Hp. }
  split; [rewrite length_fmap; reflexivity | reflexivity].
Qed.

(** A participant that is not in the room and does not join is handed
    nothing. *)
Lemma run_absent (p : participant) (ops : list operation) (r : t) :
  p ∉ participants_ r ->
  Forall (fun o => o <> Join p) ops ->
  (p ∉ participants_ (fst (run ops r)))
  /\ forall d : delivery, d ∈ snd (run ops r) -> fst d <> p.
Proof.
  revert r. induction ops as [|o ops IH]; intros r Hp Hops.
  - split; [exact Hp|]. cbn [run snd]. intros d Hd.
    apply elem_of_nil in Hd. destruct Hd.
  - apply Forall_cons in Hops. destruct Hops as [Ho Hops].
    rewrite run_step. cbn [fst snd].
    assert (Hstep : (p ∉ participants_ (fst (step o r)))
                    /\ forall d : delivery, d ∈ snd (step o r) -> fst d <> p).
    { destruct o as [q|q|msg]; cbn [step join leave deliver fst snd participants_].
      - assert (q <> p) by congruence.
        split; [rewrite not_elem_of_union, not_elem_of_singleton;
                split; [congruence | exact Hp]|].
        intros [p' m] Hd.
        change (map (fun msg0 => (q, msg0)) (recent_msgs_ r))
          with ((fun msg0 => (q, msg0)) <$> recent_msgs_ r) in Hd.
        apply list_elem_of_fmap in Hd. destruct Hd as (m' & H' & _).
        apply (f_equal fst) in H'. cbn [fst] in *. congruence.
      - split; [rewrite elem_of_difference; intros [Hin _]; exact (Hp Hin)|].
        intros d Hd. apply elem_of_nil in Hd. destruct Hd.
      - split; [exact Hp|]. intros [p' m] Hd.
        change (map (fun p0 => (p0, msg)) (elements (participants_ r)))
          with ((fun p0 => (p0, msg)) <$> elements (participants_ r)) in Hd.
        apply list_elem_of_fmap in Hd. destruct Hd as (q & H' & Hq).
        apply (f_equal fst) in H'. cbn [fst] in *. subst p'.
        apply elem_of_elements in Hq. intros ->. exact (Hp Hq). }
    destruct Hstep as [Hp1 Hd1].
    destruct (IH (fst (step o r)) Hp1 Hops) as [Hp2 Hd2].
    split; [exact Hp2|]. intros d Hd. apply elem_of_app in Hd.
    destruct Hd as [Hd|Hd]; [exact (Hd1 d Hd) | exact (Hd2 d Hd)].
Qed.

(** After [leave], a participant is handed no message by whatever the room
    does next, as long as it does not join again. *)
Theorem no_delivery_after_leave (p : participant) (ops : list operation) (r : t) :
  Forall (fun o => o <> Join p) ops ->
  (p ∉ participants_ (fst (run ops (fst (leave p r)))))
  /\ forall d : delivery,
      d ∈ snd (run ops (fst (leave p r))) -> fst d <> p.
Proof.
  intros Hops. apply run_absent; [|exact Hops].
  unfold leave. cbn [fst participants_].
  rewrite elem_of_difference, elem_of_singleton. intros [_ Hne].
  apply Hne. reflexivity.
Qed.

Lemma no_delivery_after_leave_witness :
  Forall (fun o => o <> Join 1%nat)
    [Deliver Rtcm_Message.new; Join 2%nat; Deliver Rtcm_Message.new]
  /\ forall d : delivery,
      d ∈ snd (run [Deliver Rtcm_Message.new; Join 2%nat;
                    Deliver Rtcm_Message.new]
                 (fst (leave 1%nat (fst (join 1%nat new))))) ->
      fst d <> 1%nat.
Proof.
  assert (H : Forall (fun o => o <> Join 1%nat)
                [Deliver Rtcm_Message.new; Join 2%nat;
                 Deliver Rtcm_Message.new])
    by (repeat constructor; discriminate).
  split; [exact H|].
  exact (proj2 (no_delivery_after_leave 1%nat _ (fst (join 1%nat new)) H)).
Defined.

Lemma length_trim (recent : list Rtcm_Message.t) :
  (List.length (trim recent) <= max_recent_msgs)%nat.
Proof.
  induction recent as [|m recent IH]; [cbn; lia|].
  cbn [trim]. destruct (max_recent_msgs <? _)%nat eqn:E; [exact IH|].
  apply Nat.ltb_ge in E. exact E.
Qed.

(** Every message that a run hands out was in the ring at the start or was
    delivered to the room during the run. *)
Lemma run_deliveries (P : Rtcm_Message.t -> Prop) (ops : list operation) (r : t) :
  (forall m, m ∈ recent_msgs_ r -> P m) ->
  (forall m, Deliver m ∈ ops -> P m) ->
  forall d : delivery, d ∈ snd (run ops r) -> P (snd d).
Proof.
  revert r. induction ops as [|o ops IH]; intros r Hr Hops d Hd.
  - cbn [run snd] in Hd. apply elem_of_nil in Hd. destruct Hd.
  - rewrite run_step in Hd. cbn [snd] in Hd. apply elem_of_app in Hd.
    destruct Hd as [Hd|Hd].
    + destruct o as [q|q|msg]; cbn [step join leave deliver snd] in Hd.
      * change (map (fun msg0 => (q, msg0)) (recent_msgs_ r))
          with ((fun msg0 => (q, msg0)) <$> recent_msgs_ r) in Hd.
        apply list_elem_of_fmap in Hd. destruct Hd as (m & -> & Hm).
        cbn [snd]. apply Hr. exact Hm.
      * apply elem_of_nil in Hd. destruct Hd.
      * change (map (fun p0 => (p0, msg)) (elements (participants_ r)))
          with ((fun p0 => (p0, msg)) <$> elements (participants_ r)) in Hd.
        apply list_elem_of_fmap in Hd. destruct Hd as (q & -> & _).
        cbn [snd]. apply Hops. left.
    + apply (IH (fst (step o r))); [| |exact Hd].
      * destruct o as [q|q|msg];
          cbn [step join leave deliver fst recent_msgs_]; try exact Hr.
        rewrite trim_push. intros m Hm. apply list_elem_of_singleton in Hm.
        subst m. apply Hops. left.
      * intros m Hm. apply Hops. right. exact Hm.
Qed.

(** From an empty room on, the replay ring never holds more than one
    message, a participant that joins before any [deliver] is handed nothing,
    and every message handed to a participant is one that was delivered to
    the room. *)
Theorem room_ring_bounded (ops : list operation) :
  (List.length (recent_msgs_ (fst (run ops new))) <= 1)%nat
  /\ (forall p : participant,
         last_delivered ops = None -> snd (join p (fst (run ops new))) = [])
  /\ (forall d : delivery, d ∈ snd (run ops new) -> Deliver (snd d) ∈ ops).
Proof.
  split.
  { destruct (last_delivered ops) as [m|] eqn:E.
    - rewrite (run_recent ops new m E). cbn. lia.
    - rewrite (run_no_deliver ops new E). cbn. lia. }
  split.
  { intros p E. unfold join. cbn [snd].
    rewrite (run_no_deliver ops new E). reflexivity. }
  apply (run_deliveries (fun m => Deliver m ∈ ops)).
  - cbn [new recent_msgs_]. intros m Hm. apply elem_of_nil in Hm. destruct Hm.
  - intros m Hm. exact Hm.
Qed.

Lemma room_ring_bounded_witness :
  last_delivered [Join 1%nat; Leave 1%nat] = None
  /\ snd (join 2%nat (fst (run [Join 1%nat; Leave 1%nat] new))) = [].
Proof.
  split; [reflexivity|].
  apply (proj1 (proj2 (room_ring_bounded [Join 1%nat; Leave 1%nat]))).
  reflexivity.
Defined.

End Room_Properties.

(** ** The write path of [Rtcm_Session] and [Tcp_Internal_Client] *)

Section Write_Path_Properties.

Import Write_Path.

Variable buffer : Rtcm_Message.t -> list ascii.

Lemma drop_nonempty {A : Type} (c : nat) (l : list A) :
  (c < List.length l)%nat ->
  exists (x : A), l !! c = Some x /\ drop c l = x :: drop (S c) l.
Proof.
  intros H. destruct (lookup_lt_is_Some_2 l c H) as [x Hx].
  exists x. split; [exact Hx|]. apply drop_S. exact Hx.
Qed.

Lemma take_S_snoc {A : Type} (c : nat) (l : list A) (x : A) :
  l !! c = Some x -> take (S c) l = take c l ++ [x].
Proof. intros H. apply take_S_r. exact H. Qed.

(** One event keeps the invariant and never takes an undefined step. *)
Lemma step_write_path_ok (history : list Rtcm_Message.t) (e : event) (s : t) :
  write_path_ok buffer history s ->
  match step buffer e s with
  | Ok s' => write_path_ok buffer (history ++ delivered [e]) s'
  | Undefined_behaviour => False
  | Not_a_schedule => True
  end.
Proof.
  intros (c & Hq & Hcase). destruct e as [msg|ec]; cbn [step delivered].
  - (* deliver *)
    unfold deliver. rewrite Hq.
    destruct Hcase as [(Hc & Hcl & Hfl & Hw) | (Hc & Hw & Hst)].
    + subst c. rewrite drop_all. cbn [negb app]. unfold do_write.
      cbn [write_msgs_ in_flight written closed].
      exists (List.length history). cbn [write_msgs_ in_flight written closed].
      split; [rewrite drop_app_length; reflexivity|]. right.
      split; [rewrite length_app; cbn; lia|].
      split.
      * rewrite Hw, <- (Nat.add_1_r (List.length history)).
        rewrite take_app_add', firstn_all2 by (cbn; lia).
        rewrite map_app. reflexivity.
      * left. split; [exact Hcl | rewrite Hfl; reflexivity].
    + destruct (drop_nonempty c history Hc) as (x & Hx & Hd).
      rewrite Hd. cbn [negb].
      exists c. cbn [write_msgs_ in_flight written closed].
      split; [rewrite <- Hd; symmetry; apply drop_app_le; lia|]. right.
      split; [rewrite length_app; lia|].
      split; [rewrite take_app_le by lia; exact Hw | exact Hst].
  - (* the handler of async_write *)
    cbn [app]. rewrite app_nil_r. unfold on_write.
    destruct Hcase as [(Hc & Hcl & Hfl & Hw) | (Hc & Hw & Hst)].
    + rewrite Hfl. exact I.
    + destruct Hst as [[Hcl Hfl] | [Hcl Hfl]]; rewrite Hfl; [|exact I].
      destruct (drop_nonempty c history Hc) as (x & Hx & Hd).
      destruct ec; cbn [negb].
      * exists c. cbn [write_msgs_ in_flight written closed].
        split; [exact Hq|]. right. split; [exact Hc|].
        split; [exact Hw | right; split; reflexivity].
      * rewrite Hq, Hd.
        destruct (drop (S c) history) as [|y rest] eqn:Hrest; cbn [negb].
        -- exists (S c). cbn [write_msgs_ in_flight written closed].
           split; [symmetry; exact Hrest|]. left.
           assert (Hlen : S c = List.length history).
           { apply (f_equal (@List.length _)) in Hrest.
             rewrite length_drop in Hrest. cbn in Hrest. lia. }
           split; [exact Hlen|]. split; [exact Hcl|].
           split; [reflexivity|].
           rewrite Hw, Hlen, firstn_all. reflexivity.
        -- unfold do_write. cbn [write_msgs_ in_flight written closed].
           exists (S c). cbn [write_msgs_ in_flight written closed].
           split; [symmetry; exact Hrest|]. right.
           assert (Hlen : (S c < List.length history)%nat).
           { apply (f_equal (@List.length _)) in Hrest.
             rewrite length_drop in Hrest. cbn in Hrest. lia. }
           split; [exact Hlen|].
           destruct (drop_nonempty (S c) history Hlen) as (y' & Hy & Hd').
           assert (y' = y) by congruence. subst y'.
           split; [|left; split; [exact Hcl | reflexivity]].
           rewrite Hw, (take_S_snoc (S c) history y Hy), map_app.
           reflexivity.
Qed.

Lemma delivered_app (e1 e2 : list event) :
  delivered (e1 ++ e2) = delivered e1 ++ delivered e2.
Proof.
  induction e1 as [|[msg|ec] e1 IH]; cbn [app delivered];
    [reflexivity | rewrite IH; reflexivity | exact IH].
Qed.

Lemma run_write_path_ok (events : list event) (history : list Rtcm_Message.t)
    (s : t) :
  write_path_ok buffer history s ->
  match run buffer events s with
  | Ok s' => write_path_ok buffer (history ++ delivered events) s'
  | Undefined_behaviour => False
  | Not_a_schedule => True
  end.
Proof.
  revert history s. induction events as [|e events IH]; intros history s Hok.
  - cbn [run delivered]. rewrite app_nil_r. exact Hok.
  - cbn [run]. pose proof (step_write_path_ok history e s Hok) as Hstep.
    destruct (step buffer e s) as [s1| |]; [|exact Hstep | exact I].
    specialize (IH _ s1 Hstep).
    change (e :: events) with ([e] ++ events).
    rewrite delivered_app, app_assoc. exact IH.
Qed.

(** The error branch is taken exactly when a write failed. *)
Lemma run_closed (events : list event) (s : t) :
  match run buffer events s with
  | Ok s' => closed s' = closed s || failed events
  | _ => True
  end.
Proof.
  revert s. induction events as [|e events IH]; intros s.
  - cbn [run failed]. rewrite orb_false_r. reflexivity.
  - cbn [run].
    destruct (step buffer e s) as [s1| |] eqn:Hstep; [|exact I | exact I].
    specialize (IH s1).
    destruct (run buffer events s1) as [s2| |]; [|exact I | exact I].
    rewrite IH. clear IH.
    destruct e as [msg|ec]; cbn [step failed] in *.
    + unfold deliver, do_write in Hstep.
      destruct (write_msgs_ s); cbn [negb app write_msgs_] in Hstep;
        injection Hstep as <-; reflexivity.
    + unfold on_write, do_write in Hstep.
      destruct (in_flight s); [discriminate|].
      destruct ec; cbn [negb] in Hstep.
      * injection Hstep as <-. cbn [closed].
        rewrite orb_true_r. reflexivity.
      * destruct (write_msgs_ s) as [|x [|y rest]];
          cbn [negb write_msgs_] in Hstep; [discriminate| |];
          injection Hstep as <-; reflexivity.
Qed.

(** The write path is serialised and keeps the order: for every sequence of
    [deliver] calls and write handlers, starting from an empty deque, no step
    is undefined, at most one [async_write] is in flight, the buffers handed
    to [async_write] are those of the delivered messages in delivery order,
    without gap or repetition, and when no write failed and no handler is
    pending every delivered message has been written. *)
Theorem write_path_serialised (events : list event) :
  match run buffer events new with
  | Undefined_behaviour => False
  | Not_a_schedule => True
  | Ok s =>
      (in_flight s <= 1)%nat
      /\ written s
         = map buffer (take (List.length (written s)) (delivered events))
      /\ (in_flight s = 1%nat -> write_msgs_ s <> [])
      /\ closed s = failed events
      /\ (failed events = false -> in_flight s = 0%nat ->
          written s = map buffer (delivered events) /\ write_msgs_ s = [])
  end.
Proof.
  assert (Hnew : write_path_ok buffer [] new).
  { exists 0%nat. split; [reflexivity|]. left. repeat split; reflexivity. }
  pose proof (run_write_path_ok events [] new Hnew) as Hok.
  pose proof (run_closed events new) as Hcl.
  destruct (run buffer events new) as [s| |]; [|exact Hok | exact I].
  cbn [app closed new orb] in Hok, Hcl.
  destruct Hok as (c & Hq & Hcase).
  destruct Hcase as [(Hc & Hcl' & Hfl & Hw) | (Hc & Hw & Hst)].
  - rewrite Hfl, Hw, length_map, firstn_all.
    split; [lia|]. split; [reflexivity|]. split; [discriminate|].
    split; [exact Hcl|]. intros _ _.
    split; [reflexivity|]. rewrite Hq, Hc. apply drop_all.
  - destruct (drop_nonempty c _ Hc) as (x & Hx & Hd).
    split; [destruct Hst as [[_ ->] | [_ ->]]; lia|].
    split.
    { rewrite Hw, length_map, length_take.
      rewrite Nat.min_l by lia. reflexivity. }
    split; [intros _; rewrite Hq, Hd; discriminate|].
    split; [exact Hcl|]. intros Hf Hz.
    destruct Hst as [[_ Hfl] | [Hclosed _]]; [lia | congruence].
Qed.

End Write_Path_Properties.

(** A run of the write path of a session: two messages delivered back to
    back are written one after the other. *)
Lemma write_path_serialised_witness :
  let a := Rtcm_Message.body_length 1 Rtcm_Message.new in
  let b := Rtcm_Message.body_length 2 Rtcm_Message.new in
  let events :=
    [Write_Path.Deliver a; Write_Path.Deliver b; Write_Path.Write_done false;
     Write_Path.Write_done false] in
  (Write_Path.failed events = false)
  /\ exists s : Write_Path.t,
      Write_Path.run Rtcm_Session.buffer events Write_Path.new = Ok s
      /\ Write_Path.written s
         = [Rtcm_Session.buffer a; Rtcm_Session.buffer b].
Proof.
  intros a b events. split; [reflexivity|].
  pose proof (write_path_serialised Rtcm_Session.buffer events) as H.
  destruct (Write_Path.run Rtcm_Session.buffer events Write_Path.new)
    as [s| |] eqn:E; [|destruct H | discriminate E].
  exists s. split; [reflexivity|].
  destruct H as (_ & _ & _ & _ & Hall).
  assert (Hfl : Write_Path.in_flight s = 0%nat)
    by (injection E as <-; reflexivity).
  exact (proj1 (Hall eq_refl Hfl)).
Defined.

(** ** The read path of [Rtcm_Session] *)

Section Session_Properties.

Import Rtcm_Message Rtcm_Session.

Lemma c_string_None (data : list ascii) :
  c_string data = None -> NUL ∉ data.
Proof.
  induction data as [|c data IH]; intros H.
  - apply not_elem_of_nil.
  - cbn [c_string] in H. destruct (Ascii.eqb c NUL) eqn:E; [discriminate|].
    apply Ascii.eqb_neq in E.
    destruct (c_string data); [discriminate|].
    intros Hin. apply elem_of_cons in Hin. destruct Hin as [Hin|Hin];
      [congruence | exact (IH eq_refl Hin)].
Qed.

Lemma c_string_Some (data : list ascii) :
  NUL ∈ data -> exists said, c_string data = Some said.
Proof.
  intros H. destruct (c_string data) as [said|] eqn:E; [eauto|].
  exfalso. exact (c_string_None data E H).
Qed.

(** The loop over [client_says] runs to its end within the fuel given: what
    is left has fewer than 80 characters. *)
Lemma length_drop_lines (fuel : nat) (says : list ascii) :
  (List.length says <= fuel + 79)%nat ->
  (List.length (drop_lines fuel says) < 80)%nat.
Proof.
  revert says. induction fuel as [|fuel IH]; intros says H.
  - cbn [drop_lines]. lia.
  - cbn [drop_lines]. destruct (80 <=? List.length says)%nat eqn:E.
    + apply Nat.leb_le in E. apply IH.
      rewrite length_take, length_drop. lia.
    + apply Nat.leb_gt in E. exact E.
Qed.

(** The cases of the header handler. *)
Lemma on_header_cases (h : list ascii) (s : t) :
  pending s = Reading_header ->
  let m := receive_header h (read_msg_ s) in
  match on_header h s with
  | Ok (s', actions) =>
      read_msg_ s' = snd (decode_header m)
      /\ if fst (decode_header m) then
           actions = [Read_body (body_length_ (read_msg_ s'))]
           /\ 1 <= body_length_ (read_msg_ s') <= 1029
           /\ pending s' = Reading_body
           /\ client_says s' = client_says s
         else
           actions = [Read_header]
           /\ pending s' = Reading_header
           /\ (List.length (client_says s') < 80)%nat
  | Undefined_behaviour => fst (decode_header m) = false /\ NUL ∉ data_ m
  | Not_a_schedule => False
  end.
Proof.
  intros Hp m. unfold on_header. rewrite Hp. fold m.
  pose proof (decode_header_twice m) as Hidem.
  pose proof (decode_header_data m) as Hdata.
  destruct (decode_header m) as [accepted m1] eqn:Hdec. cbn [fst snd] in *.
  destruct accepted.
  - cbn [read_msg_ pending client_says].
    split; [reflexivity|]. split; [reflexivity|].
    split; [|split; reflexivity].
    pose proof (decode_header_accepted_range m) as Hr.
    rewrite Hdec in Hr. cbn [fst snd] in Hr. apply Hr. reflexivity.
  - rewrite Hidem. cbn [negb].
    destruct (c_string (data_ m1)) as [said|] eqn:Hc.
    + cbn [read_msg_ pending client_says].
      split; [reflexivity|]. split; [reflexivity|]. split; [reflexivity|].
      apply length_drop_lines. lia.
    + split; [reflexivity|]. rewrite <- Hdata. apply c_string_None. exact Hc.
Qed.

(** What the header handler does with a header that was read: it asks for a
    body of 1 to 1029 bytes when [decode_header] accepts, and otherwise keeps
    reading headers, with fewer than 80 characters left in [client_says]; it
    never leaves the room.  The step is undefined only when the header is
    rejected and the array of [read_msg_] holds no NUL. *)
Theorem on_header_keeps_reading (h : list ascii) (s : t) :
  pending s = Reading_header ->
  let m := receive_header h (read_msg_ s) in
  match on_header h s with
  | Ok (s', actions) =>
      read_msg_ s' = snd (decode_header m)
      /\ if fst (decode_header m) then
           actions = [Read_body (body_length_ (read_msg_ s'))]
           /\ 1 <= body_length_ (read_msg_ s') <= 1029
           /\ pending s' = Reading_body
           /\ client_says s' = client_says s
         else
           actions = [Read_header]
           /\ pending s' = Reading_header
           /\ (List.length (client_says s') < 80)%nat
  | Undefined_behaviour => fst (decode_header m) = false /\ NUL ∉ data_ m
  | Not_a_schedule => False
  end.
Proof. exact (on_header_cases h s). Qed.

Lemma on_header_keeps_reading_witness :
  pending started = Reading_header
  /\ exists s' : t,
      on_header (chars "hello!") started = Ok (s', [Read_header])
      /\ (List.length (client_says s') < 80)%nat.
Proof.
  split; [reflexivity|].
  pose proof (on_header_keeps_reading (chars "hello!") started eq_refl) as H.
  cbv zeta in H.
  assert (Hrej : fst (decode_header
                        (receive_header (chars "hello!") (read_msg_ started)))
                 = false) by (vm_compute; reflexivity).
  rewrite Hrej in H.
  destruct (on_header (chars "hello!") started) as [[s' actions]| |] eqn:E.
  - destruct H as (_ & -> & _ & Hlen). exists s'. split; [reflexivity | exact Hlen].
  - vm_compute in E. discriminate E.
  - destruct H.
Defined.

End Session_Properties.

(** ** Runs of the read path *)

Section Session_Runs.

Import Rtcm_Message Rtcm_Session.

Lemma header_receive_header (h : list ascii) (m : Rtcm_Message.t) :
  List.length h = header_length -> header (receive_header h m) = h.
Proof.
  intros Hh. unfold header, receive_header. cbn [data_].
  apply take_app_length'. symmetry. exact Hh.
Qed.

Lemma message_ok_receive_header (h : list ascii) (m : Rtcm_Message.t) :
  List.length h = header_length -> message_ok m ->
  message_ok (receive_header h m).
Proof.
  unfold message_ok, receive_header, header_length, max_body_length.
  cbn [data_ body_length_]. intros Hh [Hd Hb]. split; [|exact Hb].
  rewrite length_app, length_drop, Hh, Hd. lia.
Qed.

(** [decode_header] only looks at the header. *)
Lemma decode_header_same_header (m1 m2 : Rtcm_Message.t) :
  header m2 = header m1 ->
  decode_header m1 = (true, m1) ->
  body_length_ m2 = body_length_ m1 ->
  decode_header m2 = (true, m2).
Proof.
  unfold header, decode_header. intros -> H1 Hb.
  destruct (take header_length (data_ m1)) as [|h0 [|h1 h2]];
    try discriminate.
  destruct (_ || _); [discriminate|].
  destruct (stoi h2) as [v|]; [|discriminate].
  cbn [body_length_] in *.
  destruct (to_size_t v =? 0); [discriminate|].
  destruct (to_size_t v >? max_body_length); [discriminate|].
  injection H1 as H1. rewrite <- H1 in Hb. cbn [body_length_] in Hb.
  destruct m2 as [d2 b2]. cbn [data_ body_length_] in *. subst b2.
  reflexivity.
Qed.

Lemma decode_header_fixed_range (m : Rtcm_Message.t) :
  decode_header m = (true, m) -> 1 <= body_length_ m <= 1029.
Proof.
  intros H. pose proof (decode_header_accepted_range m) as Hr.
  rewrite H in Hr. cbn [fst snd] in Hr. apply Hr. reflexivity.
Qed.

(** The message that the body handler passes to the room. *)
Lemma on_body_relayed (b : list ascii) (s : Rtcm_Session.t) :
  session_ok s -> pending s = Reading_body ->
  Z.of_nat (List.length b) = body_length_ (read_msg_ s) ->
  exists relayed : Rtcm_Message.t,
    on_body b s
    = Ok ({| read_msg_ := relayed; client_says := client_says s;
             pending := Reading_header |},
          [Room_deliver relayed; Read_header])
    /\ relayed_ok relayed
    /\ body relayed = b.
Proof.
  intros [[Hd Hb] Hacc] Hp Hlen. specialize (Hacc Hp).
  pose proof (decode_header_fixed_range _ Hacc) as Hr.
  unfold header_length, max_body_length in Hd.
  unfold on_body. rewrite Hp. eexists. split; [reflexivity|].
  set (relayed := {| data_ := _; body_length_ := _ |}).
  assert (Hdata : data_ relayed
                  = take 6 (data_ (read_msg_ s)) ++ b
                    ++ drop (6 + List.length b) (data_ (read_msg_ s))).
  { unfold relayed, Queue_Reader.copy_n, header_length. cbn [data_].
    rewrite firstn_all. reflexivity. }
  assert (Ht : List.length (take 6 (data_ (read_msg_ s))) = 6%nat)
    by (rewrite length_take, Hd; lia).
  split; [split; [split|split]|].
  - rewrite Hdata, !length_app, length_drop, Ht, Hd.
    unfold header_length, max_body_length. lia.
  - unfold relayed, max_body_length. cbn [body_length_]. lia.
  - apply (decode_header_same_header (read_msg_ s)); [|exact Hacc|reflexivity].
    unfold header, header_length. rewrite Hdata.
    rewrite take_app_length' by (symmetry; exact Ht).
    reflexivity.
  - unfold relayed. cbn [body_length_]. lia.
  - unfold body, header_length. rewrite Hdata.
    rewrite drop_app_length' by (symmetry; exact Ht).
    change (body_length_ relayed) with (body_length_ (read_msg_ s)).
    rewrite <- Hlen, Nat2Z.id. apply take_app_length.
Qed.

(** One event keeps the invariant of the read path. *)
Lemma step_session_ok (e : event) (s s' : Rtcm_Session.t)
    (actions : list action) :
  session_ok s -> step e s = Ok (s', actions) ->
  session_ok s'
  /\ pending s <> Closed
  /\ (forall msg, Room_deliver msg ∈ actions -> relayed_ok msg)
  /\ (forall n, Read_body n ∈ actions -> 1 <= n <= 1029)
  /\ (Room_leave ∈ actions -> pending s' = Closed).
Proof.
  intros Hok Hstep. destruct e as [h|b|]; cbn [step] in Hstep.
  - (* a header was read *)
    destruct (List.length h =? header_length)%nat eqn:Hh; [|discriminate].
    apply Nat.eqb_eq in Hh.
    destruct (pending s) eqn:Hp;
      try (unfold on_header in Hstep; rewrite Hp in Hstep; discriminate).
    pose proof (on_header_cases h s Hp) as Hc. cbv zeta in Hc.
    rewrite Hstep in Hc. destruct Hc as [Hm Hc].
    assert (Hmok : message_ok (read_msg_ s')).
    { rewrite Hm. apply message_ok_decode_header, message_ok_receive_header;
        [exact Hh | exact (proj1 Hok)]. }
    split; [|split; [discriminate|]].
    + split; [exact Hmok|]. intros Hp'.
      destruct (fst (decode_header (receive_header h (read_msg_ s)))) eqn:Ha.
      * rewrite Hm, decode_header_twice.
        destruct (decode_header (receive_header h (read_msg_ s))) as [a m1].
        cbn [fst snd] in *. subst a. reflexivity.
      * destruct Hc as (_ & Hp'' & _). congruence.
    + destruct (fst (decode_header (receive_header h (read_msg_ s)))).
      * destruct Hc as (-> & Hr & Hp' & _).
        split; [|split].
        -- intros msg Hin. apply list_elem_of_singleton in Hin. discriminate.
        -- intros n Hin. apply list_elem_of_singleton in Hin.
           injection Hin as ->. exact Hr.
        -- intros Hin. apply list_elem_of_singleton in Hin. discriminate.
      * destruct Hc as (-> & Hp' & _).
        split; [|split]; intros; 
          match goal with
          | H : _ ∈ [Read_header] |- _ =>
              apply list_elem_of_singleton in H; discriminate
          end.
  - (* a body was read *)
    destruct (Z.of_nat (List.length b) =? body_length_ (read_msg_ s)) eqn:Hb;
      [|discriminate].
    apply Z.eqb_eq in Hb.
    destruct (pending s) eqn:Hp;
      try (unfold on_body in Hstep; rewrite Hp in Hstep; discriminate).
    destruct (on_body_relayed b s Hok Hp Hb) as (relayed & Hon & Hrel & _).
    rewrite Hon in Hstep. injection Hstep as <- <-.
    split; [|split; [discriminate|]].
    + split; [exact (proj1 Hrel) | discriminate].
    + split; [|split].
      * intros msg Hin. apply elem_of_cons in Hin.
        destruct Hin as [Hin|Hin]; [injection Hin as ->; exact Hrel|].
        apply list_elem_of_singleton in Hin. discriminate.
      * intros n Hin. apply elem_of_cons in Hin.
        destruct Hin as [Hin|Hin]; [discriminate|].
        apply list_elem_of_singleton in Hin. discriminate.
      * intros Hin. apply elem_of_cons in Hin.
        destruct Hin as [Hin|Hin]; [discriminate|].
        apply list_elem_of_singleton in Hin. discriminate.
  - (* the read failed *)
    unfold on_read_error in Hstep.
    destruct (pending s) eqn:Hp; try discriminate;
      injection Hstep as <- <-;
      (split; [split; [exact (proj1 Hok) | discriminate]|]);
      (split; [discriminate|]);
      (split; [|split; [|reflexivity]]);
      intros x Hin; apply list_elem_of_singleton in Hin; discriminate.
Qed.

Lemma run_session_ok (events : list event) (s s' : Rtcm_Session.t)
    (actions : list action) :
  session_ok s -> run events s = Ok (s', actions) ->
  session_ok s'
  /\ (forall msg, Room_deliver msg ∈ actions -> relayed_ok msg)
  /\ (forall n, Read_body n ∈ actions -> 1 <= n <= 1029)
  /\ (Room_leave ∈ actions -> pending s' = Closed).
Proof.
  revert s s' actions.
  induction events as [|e events IH]; intros s s' actions Hok Hrun.
  - cbn [run] in Hrun. injection Hrun as <- <-.
    split; [exact Hok|].
    repeat split; intros; 
      match goal with H : _ ∈ [] |- _ => apply elem_of_nil in H; destruct H end.
  - cbn [run] in Hrun.
    destruct (step e s) as [[s1 a1]| |] eqn:Hstep; try discriminate.
    destruct (run events s1) as [[s2 a2]| |] eqn:Hrest; try discriminate.
    injection Hrun as <- <-.
    destruct (step_session_ok e s s1 a1 Hok Hstep)
      as (Hok1 & _ & Hd1 & Hb1 & Hl1).
    destruct (IH s1 s2 a2 Hok1 Hrest) as (Hok2 & Hd2 & Hb2 & Hl2).
    split; [exact Hok2|].
    split; [|split].
    + intros msg Hin. apply elem_of_app in Hin.
      destruct Hin as [Hin|Hin]; [exact (Hd1 msg Hin) | exact (Hd2 msg Hin)].
    + intros n Hin. apply elem_of_app in Hin.
      destruct Hin as [Hin|Hin]; [exact (Hb1 n Hin) | exact (Hb2 n Hin)].
    + intros Hin. apply elem_of_app in Hin.
      destruct Hin as [Hin|Hin]; [|exact (Hl2 Hin)].
      specialize (Hl1 Hin).
      destruct events as [|e' events].
      * cbn [run] in Hrest. injection Hrest as <- <-. exact Hl1.
      * cbn [run] in Hrest.
        destruct (step e' s1) as [[s3 a3]| |] eqn:Hstep'; try discriminate.
        destruct (step_session_ok e' s1 s3 a3 Hok1 Hstep') as (_ & Hne & _).
        contradiction.
Qed.

Lemma session_ok_started : session_ok started.
Proof.
  split; [|discriminate].
  split; [reflexivity | cbn; unfold max_body_length; lia].
Qed.

(** Whatever the peer sends, a session passes to the room only messages
    whose header [decode_header] accepts and that hold a body of the length
    the header announces, between 1 and 1029 bytes; it never asks for a body
    that the array cannot hold; and once it has left the room it does
    nothing more. *)
Theorem session_relays_accepted_messages (events : list event) :
  match run events started with
  | Ok (s, actions) =>
      (forall msg : Rtcm_Message.t,
          Room_deliver msg ∈ actions ->
          message_ok msg
          /\ decode_header msg = (true, msg)
          /\ 1 <= body_length_ msg <= 1029)
      /\ (forall n : Z, Read_body n ∈ actions -> 1 <= n <= 1029)
      /\ (Room_leave ∈ actions -> pending s = Closed)
  | Undefined_behaviour => True
  | Not_a_schedule => True
  end.
Proof.
  destruct (run events started) as [[s actions]| |] eqn:Hrun;
    [|exact I | exact I].
  destruct (run_session_ok events started s actions session_ok_started Hrun)
    as (_ & Hd & Hb & Hl).
  split; [|split; [exact Hb | exact Hl]].
  intros msg Hin. destruct (Hd msg Hin) as (Hok & Hacc & _).
  split; [exact Hok|]. split; [exact Hacc|].
  apply decode_header_fixed_range. exact Hacc.
Qed.

End Session_Runs.

Lemma session_relays_accepted_messages_witness :
  exists (s : Rtcm_Session.t) (msg : Rtcm_Message.t),
    Rtcm_Session.run
      [Rtcm_Session.Header_received (chars "GS0002");
       Rtcm_Session.Body_received (chars "hi")] Rtcm_Session.started
    = Ok (s, [Rtcm_Session.Read_body 2; Rtcm_Session.Room_deliver msg;
              Rtcm_Session.Read_header])
    /\ Rtcm_Message.body msg = chars "hi"
    /\ 1 <= Rtcm_Message.body_length_ msg <= 1029.
Proof.
  pose proof (session_relays_accepted_messages
                [Rtcm_Session.Header_received (chars "GS0002");
                 Rtcm_Session.Body_received (chars "hi")]) as H.
  destruct (Rtcm_Session.run _ Rtcm_Session.started)
    as [[s actions]| |] eqn:E;
    [|vm_compute in E; discriminate E | vm_compute in E; discriminate E].
  vm_compute in E. injection E as <- <-.
  eexists _, _. split; [reflexivity|]. split; [vm_compute; reflexivity|].
  destruct H as (Hd & _).
  refine (proj2 (proj2 (Hd _ _))).
  apply elem_of_cons. right. apply elem_of_cons. left. reflexivity.
Defined.

(** ** The array of [read_msg_] without a terminator *)

Section Session_Overread.

Import Rtcm_Message Rtcm_Session.

Lemma c_string_no_NUL (data : list ascii) :
  NUL ∉ data -> c_string data = None.
Proof.
  induction data as [|c data IH]; intros H; [reflexivity|].
  cbn [c_string]. apply not_elem_of_cons in H. destruct H as [Hc Hd].
  destruct (Ascii.eqb c NUL) eqn:E;
    [apply Ascii.eqb_eq in E; congruence|].
  rewrite (IH Hd). reflexivity.
Qed.

(** A rejected header in an array without NUL: the handler's
    [client_says += read_msg_.data()] has no terminator to stop at. *)
Lemma on_header_no_NUL (h : list ascii) (s : Rtcm_Session.t) :
  pending s = Reading_header ->
  fst (decode_header (receive_header h (read_msg_ s))) = false ->
  NUL ∉ data_ (receive_header h (read_msg_ s)) ->
  on_header h s = Undefined_behaviour.
Proof.
  intros Hp Hrej Hnul. unfold on_header. rewrite Hp.
  pose proof (decode_header_twice (receive_header h (read_msg_ s))) as Hidem.
  pose proof (decode_header_data (receive_header h (read_msg_ s))) as Hdata.
  destruct (decode_header (receive_header h (read_msg_ s))) as [a m1].
  cbn [fst snd] in *. subst a. rewrite Hidem. cbn [negb].
  rewrite c_string_no_NUL; [reflexivity|]. rewrite Hdata. exact Hnul.
Qed.

(** A peer can bring a session to that point: after a body of 1029 bytes
    without NUL, any header of six bytes without NUL that does not start
    with "GS" leaves the whole array of [read_msg_] without NUL, and the
    handler of the rejected header reads past its end. *)
Theorem session_reads_past_the_array (b h2 : list ascii) (c0 c1 : ascii) :
  List.length b = 1029%nat -> NUL ∉ b ->
  List.length h2 = 4%nat -> NUL ∉ c0 :: c1 :: h2 ->
  c0 <> "G"%char \/ c1 <> "S"%char ->
  run [Header_received (chars "GS1029"); Body_received b;
       Header_received (c0 :: c1 :: h2)] started
  = Undefined_behaviour.
Proof.
  intros Hb Hnb Hh Hnh Htag.
  assert (H1 : step (Header_received (chars "GS1029")) started
               = Ok ({| read_msg_ :=
                          {| data_ := chars "GS1029" ++ repeat NUL 1029;
                             body_length_ := 1029 |};
                        client_says := [];
                        pending := Reading_body |},
                     [Read_body 1029]))
    by (vm_compute; reflexivity).
  cbn [run]. rewrite H1. clear H1.
  set (s1 := {| read_msg_ := _; client_says := []; pending := Reading_body |}).
  assert (H2 : step (Body_received b) s1
               = Ok ({| read_msg_ :=
                          {| data_ := chars "GS1029" ++ b;
                             body_length_ := 1029 |};
                        client_says := [];
                        pending := Reading_header |},
                     [Room_deliver {| data_ := chars "GS1029" ++ b;
                                      body_length_ := 1029 |};
                      Read_header])).
  { cbn [step]. unfold s1. cbn [read_msg_ body_length_]. rewrite Hb.
    change (Z.of_nat 1029 =? 1029) with true. cbv iota.
    unfold on_body. cbn [pending read_msg_ client_says data_ body_length_].
    rewrite Hb.
    assert (Hcopy : Queue_Reader.copy_n b 1029 header_length
                      (chars "GS1029" ++ repeat NUL 1029)
                    = chars "GS1029" ++ b).
    { unfold Queue_Reader.copy_n.
      rewrite (take_app_length' (chars "GS1029")) by reflexivity.
      rewrite <- Hb, firstn_all, Hb.
      rewrite drop_ge by (rewrite length_app, repeat_length; cbn; lia).
      rewrite app_nil_r. reflexivity. }
    rewrite Hcopy. reflexivity. }
  rewrite H2. clear H2 s1.
  set (s2 := {| read_msg_ := _; client_says := []; pending := Reading_header |}).
  assert (H3 : step (Header_received (c0 :: c1 :: h2)) s2 = Undefined_behaviour).
  { cbn [step List.length]. rewrite Hh.
    change (6 =? header_length)%nat with true. cbv iota.
    apply on_header_no_NUL; [reflexivity | |].
    - rewrite decode_header_wrong_tag by exact Htag. reflexivity.
    - unfold receive_header, s2. cbn [read_msg_ data_ List.length].
      rewrite Hh, (drop_app_length' (chars "GS1029")) by reflexivity.
      rewrite elem_of_app. intros [Hin|Hin]; [exact (Hnh Hin) | exact (Hnb Hin)]. }
  rewrite H3. reflexivity.
Qed.

Lemma session_reads_past_the_array_witness :
  (List.length (repeat "a"%char 1029) = 1029%nat
   /\ List.length (chars "XXXX") = 4%nat
   /\ ("X"%char <> "G"%char \/ "X"%char <> "S"%char))
  /\ run [Header_received (chars "GS1029");
          Body_received (repeat "a"%char 1029);
          Header_received (chars "XXXXXX")] started
     = Undefined_behaviour.
Proof.
  split; [split; [reflexivity | split; [reflexivity | left; discriminate]]|].
  apply (session_reads_past_the_array (repeat "a"%char 1029) (chars "XXXX")
           "X" "X")%char.
  - reflexivity.
  - intros Hin. apply list_elem_of_In, repeat_spec in Hin. discriminate.
  - reflexivity.
  - intros Hin. repeat (apply elem_of_cons in Hin; destruct Hin as [Hin|Hin];
                        [discriminate|]).
    apply elem_of_nil in Hin. exact Hin.
  - left. discriminate.
Defined.

End Session_Overread.

(** ** From the queue to the clients *)

Section Queue_To_Clients.

Import Rtcm_Message.

(** The buffer that the client's [do_write] makes of the envelope of a
    message: the header, then the body. *)
Lemma buffer_envelope (message : string) :
  let n := Z.min (Z.of_nat (String.length message)) max_body_length in
  Tcp_Internal_Client.buffer (Queue_Reader.envelope message)
  = (chars "GS" ++ space_padded_decimal_4 n)
    ++ take (Z.to_nat n) (chars message).
Proof.
  intros n. unfold Tcp_Internal_Client.buffer, length.
  rewrite envelope_body_length. fold n.
  assert (Hn : 0 <= n <= 1029) by (unfold n, max_body_length; lia).
  replace (Z.to_nat (Z.of_nat header_length + n))
    with (header_length + Z.to_nat n)%nat by lia.
  rewrite <- (take_drop header_length
                (take (header_length + Z.to_nat n)
                   (data_ (Queue_Reader.envelope message)))).
  rewrite take_take, Nat.min_l by lia.
  rewrite <- take_drop_commute.
  change (take header_length (data_ (Queue_Reader.envelope message)))
    with (header (Queue_Reader.envelope message)).
  rewrite envelope_header. fold n. f_equal.
  pose proof (envelope_body message) as Hb. unfold body in Hb.
  rewrite envelope_body_length in Hb. exact Hb.
Qed.

(** The buffer of the envelope of a non-empty message, read by a session as
    a header and a body. *)
Lemma buffer_envelope_relayed (message : string) (s : Rtcm_Session.t) :
  (1 <= String.length message)%nat ->
  Rtcm_Session.pending s = Rtcm_Session.Reading_header ->
  let wire := Tcp_Internal_Client.buffer (Queue_Reader.envelope message) in
  let n := Z.min (Z.of_nat (String.length message)) max_body_length in
  List.length wire = (header_length + Z.to_nat n)%nat
  /\ exists (s' : Rtcm_Session.t) (relayed : Rtcm_Message.t) (w : Write_Path.t),
      Rtcm_Session.run
        [Rtcm_Session.Header_received (take header_length wire);
         Rtcm_Session.Body_received (drop header_length wire)] s
      = Ok (s', [Rtcm_Session.Read_body n; Rtcm_Session.Room_deliver relayed;
                 Rtcm_Session.Read_header])
      /\ body relayed = take (Z.to_nat n) (chars message)
      /\ Rtcm_Session.deliver relayed Write_Path.new = Ok w
      /\ Write_Path.written w = [take (Z.to_nat n) (chars message)].
Proof.
  intros Hlen Hp wire n.
  assert (Hn : 1 <= n <= 1029) by (unfold n, max_body_length; lia).
  assert (Hwire : wire = (chars "GS" ++ space_padded_decimal_4 n)
                         ++ take (Z.to_nat n) (chars message))
    by apply buffer_envelope.
  set (h := chars "GS" ++ space_padded_decimal_4 n) in *.
  set (b := take (Z.to_nat n) (chars message)) in *.
  assert (Hh : List.length h = header_length) by reflexivity.
  assert (Hb : List.length b = Z.to_nat n)
    by (unfold b; rewrite length_take, length_chars; lia).
  split; [rewrite Hwire, length_app, Hh, Hb; reflexivity|].
  rewrite Hwire, take_app_length', drop_app_length' by (symmetry; exact Hh).
  (* the header *)
  set (m := receive_header h (Rtcm_Session.read_msg_ s)).
  assert (Hdec : decode_header m = (true, {| data_ := data_ m; body_length_ := n |})).
  { rewrite (decode_header_space_padded n m); [|lia|].
    - destruct (n =? 0) eqn:E; [apply Z.eqb_eq in E; lia | reflexivity].
    - unfold m. apply header_receive_header. exact Hh. }
  set (s1 := {| Rtcm_Session.read_msg_ := {| data_ := data_ m; body_length_ := n |};
                Rtcm_Session.client_says := Rtcm_Session.client_says s;
                Rtcm_Session.pending := Rtcm_Session.Reading_body |}).
  assert (H1 : Rtcm_Session.step (Rtcm_Session.Header_received h) s
               = Ok (s1, [Rtcm_Session.Read_body n])).
  { cbn [Rtcm_Session.step]. rewrite Hh, Nat.eqb_refl.
    unfold Rtcm_Session.on_header. rewrite Hp. fold m. rewrite Hdec.
    reflexivity. }
  (* the body *)
  set (relayed := {| data_ := Queue_Reader.copy_n b (List.length b) header_length
                                (data_ m);
                     body_length_ := n |}).
  assert (H2 : Rtcm_Session.step (Rtcm_Session.Body_received b) s1
               = Ok ({| Rtcm_Session.read_msg_ := relayed;
                        Rtcm_Session.client_says := Rtcm_Session.client_says s;
                        Rtcm_Session.pending := Rtcm_Session.Reading_header |},
                     [Rtcm_Session.Room_deliver relayed;
                      Rtcm_Session.Read_header])).
  { cbn [Rtcm_Session.step]. unfold s1.
    cbn [Rtcm_Session.read_msg_ body_length_]. rewrite Hb, Z2Nat.id by lia.
    rewrite Z.eqb_refl. reflexivity. }
  assert (Hbody : body relayed = b).
  { unfold body, relayed, Queue_Reader.copy_n. cbn [data_ body_length_].
    rewrite firstn_all.
    rewrite drop_app_length'.
    - rewrite <- Hb. apply take_app_length.
    - unfold m, receive_header. cbn [data_].
      rewrite take_app_length' by (symmetry; exact Hh). symmetry. exact Hh. }
  eexists _, relayed, _. split.
  { cbn [Rtcm_Session.run]. rewrite H1, H2. reflexivity. }
  split; [exact Hbody|].
  unfold Rtcm_Session.deliver, Write_Path.deliver, Write_Path.do_write.
  cbn [Write_Path.write_msgs_ Write_Path.new app negb Write_Path.written].
  split; [reflexivity|].
  cbn [Write_Path.written app]. unfold Rtcm_Session.buffer.
  rewrite Hbody. reflexivity.
Qed.

(** From the envelope to the clients.  The function that [write] posts
    copies what its reference leads to when the reactor runs it.  If that is
    still the envelope that [do_read_queue] built for a non-empty message,
    the client's [do_write] hands to [async_write] the 6 header bytes and the
    min(length, 1029) body bytes; a session that reads them as a header and a
    body passes the message to the room; and a session that is handed the
    relayed message writes to its client the first min(length, 1029) bytes of
    the message.  If the object referred to is gone, the step is
    undefined. *)
Theorem envelope_reaches_clients (message : string)
    (referent : option Rtcm_Message.t) (s : Rtcm_Session.t) :
  (1 <= String.length message)%nat ->
  referent = Some (Queue_Reader.envelope message) ->
  Rtcm_Session.pending s = Rtcm_Session.Reading_header ->
  let n := Z.min (Z.of_nat (String.length message)) max_body_length in
  (exists (c : Write_Path.t) (wire : list ascii),
      Tcp_Internal_Client.posted_write referent Write_Path.new = Ok c
      /\ Write_Path.written c = [wire]
      /\ List.length wire = (header_length + Z.to_nat n)%nat
      /\ exists (s' : Rtcm_Session.t) (relayed : Rtcm_Message.t)
                (w : Write_Path.t),
          Rtcm_Session.run
            [Rtcm_Session.Header_received (take header_length wire);
             Rtcm_Session.Body_received (drop header_length wire)] s
          = Ok (s', [Rtcm_Session.Read_body n;
                     Rtcm_Session.Room_deliver relayed;
                     Rtcm_Session.Read_header])
          /\ body relayed = take (Z.to_nat n) (chars message)
          /\ Rtcm_Session.deliver relayed Write_Path.new = Ok w
          /\ Write_Path.written w = [take (Z.to_nat n) (chars message)])
  /\ (forall c : Write_Path.t,
         Tcp_Internal_Client.posted_write None c = Undefined_behaviour).
Proof.
  intros Hlen -> Hp n. split; [|reflexivity].
  destruct (buffer_envelope_relayed message s Hlen Hp) as [Hwire Hrun].
  eexists _, _.
  split; [reflexivity|]. split; [reflexivity|].
  split; [exact Hwire | exact Hrun].
Qed.

Lemma envelope_reaches_clients_witness :
  ((1 <= String.length "RTCM")%nat
   /\ Rtcm_Session.pending Rtcm_Session.started = Rtcm_Session.Reading_header)
  /\ exists (c : Write_Path.t) (wire : list ascii),
      Tcp_Internal_Client.posted_write (Some (Queue_Reader.envelope "RTCM"))
        Write_Path.new = Ok c
      /\ Write_Path.written c = [wire]
      /\ List.length wire = 10%nat.
Proof.
  assert (H1 : (1 <= String.length "RTCM")%nat) by (cbn; lia).
  split; [split; [exact H1 | reflexivity]|].
  destruct (proj1 (envelope_reaches_clients "RTCM"
                     (Some (Queue_Reader.envelope "RTCM"))
                     Rtcm_Session.started H1 eq_refl eq_refl))
    as (c & wire & Hc & Hw & Hl & _).
  exists c, wire. split; [exact Hc|]. split; [exact Hw | exact Hl].
Defined.

(** The envelope of an empty message has a buffer of six bytes, a header
    with length 0, which no session accepts. *)
Lemma empty_message_is_rejected (m : Rtcm_Message.t) :
  Tcp_Internal_Client.buffer (Queue_Reader.envelope "") = chars "GS   0"
  /\ fst (decode_header
            (receive_header
               (Tcp_Internal_Client.buffer (Queue_Reader.envelope "")) m))
     = false.
Proof.
  assert (H : Tcp_Internal_Client.buffer (Queue_Reader.envelope "")
              = chars "GS   0") by (vm_compute; reflexivity).
  split; [exact H|]. rewrite H.
  rewrite (decode_header_space_padded 0); [reflexivity | lia |].
  apply header_receive_header. reflexivity.
Qed.

End Queue_To_Clients.

(** ** [Queue_Reader] without the sentinel *)

(** As long as the sentinel has not been popped, [do_read_queue] has passed
    every popped message to the client, in pop order and once each, and
    waits for the next one: it only returns on the sentinel. *)
Theorem do_read_queue_waits_without_sentinel (popped : list string) :
  ~ In "Goodbye"%string popped ->
  Queue_Reader.do_read_queue popped
  = (map Queue_Reader.envelope popped, Queue_Reader.Waiting).
Proof. apply do_read_queue_no_sentinel. Qed.

Lemma do_read_queue_waits_without_sentinel_witness :
  ~ In "Goodbye"%string ["goodbye"; "Goodbye "]%string
  /\ Queue_Reader.do_read_queue ["goodbye"; "Goodbye "]%string
     = ([Queue_Reader.envelope "goodbye"; Queue_Reader.envelope "Goodbye "],
        Queue_Reader.Waiting).
Proof.
  assert (H : ~ In "Goodbye"%string ["goodbye"; "Goodbye "]%string)
    by (intros [H|[H|[]]]; discriminate H).
  split; [exact H|].
  exact (do_read_queue_waits_without_sentinel _ H).
Defined.

(** ** [Tcp_Server] *)

Section Server_Properties.

Import Tcp_Server.

Lemma on_accept_start_session (ec ec2 : bool) (s : t) :
  start_session (fst (on_accept ec ec2 s)) = true.
Proof.
  unfold on_accept. destruct ec, (first_client s), ec2; reflexivity.
Qed.




End Server_Properties.
